(** * mysql-backup, package [pkg/storage/s3]: a shallow embedding

    The package adapts a storage interface (Pull, Push, ReadDir, Remove,
    Protocol, URL) to an S3 client.  Strings are Go byte strings, modelled
    as [string]; an [int64] that is only passed along is a [Z].  The calls
    the package makes to its collaborators (the AWS SDK, the [os] package,
    the logger) are the events of a small free monad, so that a run against
    any environment and the requests it issues can be stated.

    The Go standard library functions the package calls ([path.Join],
    [url.Parse], [URL.Hostname], [URL.Port], [URL.String]) are embedded from
    the Go sources of [path] and [net/url]. *)

From Stdlib Require Import String Ascii List Bool Arith ZArith Lia.
Import ListNotations.
Local Open Scope string_scope.
Local Open Scope list_scope.

(** ** Bytes and Go's [strings] helpers *)

Definition byte_le (a b : ascii) : bool := (nat_of_ascii a <=? nat_of_ascii b)%nat.

(** [lo <= c && c <= hi] *)
Definition between (lo hi c : ascii) : bool := byte_le lo c && byte_le c hi.

Definition bytes (s : string) : list ascii := list_ascii_of_string s.
Definition of_bytes (l : list ascii) : string := string_of_list_ascii l.

Module strings.

(** [s[i:]] *)
Fixpoint drop (i : nat) (s : string) : string :=
  match i, s with
  | O, _ => s
  | S i', String _ s' => drop i' s'
  | S _, EmptyString => EmptyString
  end.

(** [s[:i]] *)
Fixpoint take (i : nat) (s : string) : string :=
  match i, s with
  | O, _ => EmptyString
  | S i', String c s' => String c (take i' s')
  | S _, EmptyString => EmptyString
  end.

Definition HasPrefix (s pre : string) : bool := String.prefix pre s.

Definition HasSuffix (s suf : string) : bool :=
  (String.length suf <=? String.length s)%nat
  && String.eqb (drop (String.length s - String.length suf) s) suf.

(** [strings.Index]: the result [-1] is [None]. *)
Fixpoint Index_from (i : nat) (s sub : string) : option nat :=
  if String.prefix sub s then Some i
  else match s with
       | EmptyString => None
       | String _ s' => Index_from (S i) s' sub
       end.
Definition Index (s sub : string) : option nat := Index_from 0 s sub.

(** [strings.LastIndex]: the result [-1] is [None]. *)
Fixpoint LastIndex_from (i : nat) (s sub : string) : option nat :=
  match s with
  | EmptyString => if String.prefix sub s then Some i else None
  | String _ s' =>
      match LastIndex_from (S i) s' sub with
      | Some j => Some j
      | None => if String.prefix sub s then Some i else None
      end
  end.
Definition LastIndex (s sub : string) : option nat := LastIndex_from 0 s sub.

Definition Contains (s sub : string) : bool :=
  match Index s sub with Some _ => true | None => false end.

(** [strings.Cut]: [(before, after, found)]. *)
Definition Cut (s sep : string) : string * string * bool :=
  match Index s sep with
  | Some i => (take i s, drop (i + String.length sep) s, true)
  | None => (s, EmptyString, false)
  end.

(** [strings.Count] for a separator of one byte, as the callers use it. *)
Fixpoint CountByte (s : string) (c : ascii) : nat :=
  match s with
  | EmptyString => 0
  | String d s' => (if Ascii.eqb d c then 1 else 0) + CountByte s' c
  end.

Definition lower (c : ascii) : ascii :=
  if between "A" "Z" c then ascii_of_nat (nat_of_ascii c + 32) else c.

(** [strings.ToLower] on ASCII input (the only input [url.parse] gives it:
    a scheme is made of ASCII letters, digits, [+], [-] and [.]). *)
Fixpoint ToLower (s : string) : string :=
  match s with
  | EmptyString => EmptyString
  | String c s' => String (lower c) (ToLower s')
  end.

End strings.

(** ** Go's [path] package: [Clean] and [Join] *)

Module path.

Definition is_slash (c : ascii) : bool := Ascii.eqb c "/".
Definition is_dot (c : ascii) : bool := Ascii.eqb c ".".

(** [r == n || path[r] == '/'] on the unread input [path[r:]]. *)
Definition at_end_or_slash (rest : list ascii) : bool :=
  match rest with
  | [] => true
  | c :: _ => is_slash c
  end.

(** [for ; r < n && path[r] != '/'; r++ { out.append(path[r]) }]:
    the unread input and the buffer afterwards. *)
Fixpoint copy_element (rest out : list ascii) : list ascii * list ascii :=
  match rest with
  | [] => ([], out)
  | c :: rest' =>
      if is_slash c then (rest, out) else copy_element rest' (out ++ [c])
  end.

(** [for out.w > dotdot && out.index(out.w) != '/' { out.w-- }]: the final
    [out.w], from [out.w = w]. *)
Fixpoint backtrack_w (out : list ascii) (dotdot w : nat) : nat :=
  match w with
  | O => O
  | S w' =>
      if (dotdot <? w)%nat && negb (is_slash (nth w out "/"%char))
      then backtrack_w out dotdot w'
      else w
  end.

(** [out.w--] and the loop above; the buffer is then [out.s[:out.w]]. *)
Definition backtrack (out : list ascii) (dotdot : nat) : list ascii :=
  firstn (backtrack_w out dotdot (length out - 1)) out.

(** The main loop of [Clean], [for r < n { switch ... }].  [rest] is the
    unread input [path[r:]], [out] the bytes written so far (the lazybuf's
    contents, of length [out.w]).  Every turn reads at least one byte, so
    [fuel = length rest] turns are enough ([clean_loop_fuel]). *)
Fixpoint clean_loop (fuel : nat) (rooted : bool) (rest out : list ascii)
         (dotdot : nat) : list ascii :=
  match fuel with
  | O => out
  | S fuel' =>
      match rest with
      | [] => out
      | c :: rest1 =>
          if is_slash c then
            (* empty path element *)
            clean_loop fuel' rooted rest1 out dotdot
          else if is_dot c && at_end_or_slash rest1 then
            (* . element *)
            clean_loop fuel' rooted rest1 out dotdot
          else if is_dot c && is_dot (hd "/"%char rest1)
                  && at_end_or_slash (tl rest1) then
            (* .. element: remove to last / *)
            let rest2 := tl rest1 in
            if (dotdot <? length out)%nat then
              (* can backtrack *)
              clean_loop fuel' rooted rest2 (backtrack out dotdot) dotdot
            else if negb rooted then
              (* cannot backtrack, but not rooted, so append .. element *)
              let out1 := if (0 <? length out)%nat then out ++ ["/"%char] else out in
              let out2 := out1 ++ ["."%char; "."%char] in
              clean_loop fuel' rooted rest2 out2 (length out2)
            else
              clean_loop fuel' rooted rest2 out dotdot
          else
            (* real path element: add slash if needed, copy element *)
            let out1 :=
              if (rooted && negb (length out =? 1)%nat)
                 || (negb rooted && negb (length out =? 0)%nat)
              then out ++ ["/"%char] else out in
            let '(rest', out2) := copy_element rest out1 in
            clean_loop fuel' rooted rest' out2 dotdot
      end
  end.

Definition Clean (path : string) : string :=
  if String.eqb path "" then "."
  else
    let p := bytes path in
    let rooted := is_slash (hd "."%char p) in
    let out :=
      if rooted then clean_loop (length p) rooted (tl p) ["/"%char] 1
      else clean_loop (length p) rooted p [] 0 in
    (* Turn empty string into "." *)
    if (length out =? 0)%nat then "." else of_bytes out.

Definition Join (elem : list string) : string :=
  let size := fold_left (fun size e => size + String.length e) elem 0 in
  if (size =? 0)%nat then ""
  else
    let buf :=
      fold_left
        (fun buf e =>
           if (0 <? String.length buf)%nat || negb (String.eqb e "") then
             ((if (0 <? String.length buf)%nat then buf ++ "/" else buf) ++ e)%string
           else buf)
        elem "" in
    Clean buf.

(** Two adjacent slashes somewhere in the bytes. *)
Fixpoint double_slash (l : list ascii) : bool :=
  match l with
  | [] => false
  | c :: t =>
      (is_slash c && match t with d :: _ => is_slash d | [] => false end)
      || double_slash t
  end.

End path.

(** ** Errors and results

    A Go function returning [(T, error)] is used by this package as a sum:
    the value is read only when the error is nil.  [fmt.Errorf] is kept
    symbolic: its format and its operands. *)

Inductive error : Type :=
| errors_New (text : string)
| EscapeError (s : string)
| InvalidHostError (s : string)
| url_Error (Op URL : string) (Err : error)
| fmt_Errorf (format : string) (a : list operand)
with operand : Type :=
| a_string (s : string)
| a_error (e : error).

Inductive result (A : Type) : Type :=
| Ok (a : A)
| Err (e : error).
Arguments Ok {A} a.
Arguments Err {A} e.

Definition is_ok {A} (r : result A) : bool :=
  match r with Ok _ => true | Err _ => false end.

(** [v, err := e; if err != nil { return ..., err }; k v] *)
Definition result_bind {A B} (r : result A) (k : A -> result B) : result B :=
  match r with
  | Ok a => k a
  | Err e => Err e
  end.

Notation "'try' x <- e ; k" := (result_bind e (fun x => k))
  (at level 10, x pattern, e at level 100, k at level 200).

(** ** Go's [net/url] package: [Parse], [Hostname], [Port], [String] *)

Module url.

Inductive encoding : Type :=
| encodePath
| encodePathSegment
| encodeHost
| encodeZone
| encodeUserPassword
| encodeQueryComponent
| encodeFragment.

Definition encoding_eqb (a b : encoding) : bool :=
  match a, b with
  | encodePath, encodePath
  | encodePathSegment, encodePathSegment
  | encodeHost, encodeHost
  | encodeZone, encodeZone
  | encodeUserPassword, encodeUserPassword
  | encodeQueryComponent, encodeQueryComponent
  | encodeFragment, encodeFragment => true
  | _, _ => false
  end.

(** [c] is one of the bytes of [set] (a [switch c { case ...: }]). *)
Definition one_of (set : string) (c : ascii) : bool :=
  existsb (Ascii.eqb c) (bytes set).

Definition ishex (c : ascii) : bool :=
  between "0" "9" c || between "a" "f" c || between "A" "F" c.

Definition unhex (c : ascii) : nat :=
  if between "0" "9" c then nat_of_ascii c - nat_of_ascii "0"
  else if between "a" "f" c then nat_of_ascii c - nat_of_ascii "a" + 10
  else if between "A" "F" c then nat_of_ascii c - nat_of_ascii "A" + 10
  else 0.

(** [unhex(a)<<4 | unhex(b)] *)
Definition unhex2 (a b : ascii) : ascii := ascii_of_nat (unhex a * 16 + unhex b).

Definition upperhex : string := "0123456789ABCDEF".

Definition alphanum (c : ascii) : bool :=
  between "a" "z" c || between "A" "Z" c || between "0" "9" c.

Definition shouldEscape (c : ascii) (mode : encoding) : bool :=
  (* §2.3 Unreserved characters (alphanum) *)
  if alphanum c then false
  else if (encoding_eqb mode encodeHost || encoding_eqb mode encodeZone)
          && one_of "!$&'()*+,;=:[]<>" c then false
  else if (encoding_eqb mode encodeHost || encoding_eqb mode encodeZone)
          && Ascii.eqb c (ascii_of_nat 34) then false
  else if one_of "-_.~" c then false
  else if one_of "$&+,/:;=?@" c then
    match mode with
    | encodePath => Ascii.eqb c "?"
    | encodePathSegment => one_of "/;,?" c
    | encodeUserPassword => one_of "@/?:" c
    | encodeQueryComponent => true
    | encodeFragment => false
    | encodeHost | encodeZone => true
    end
  else if encoding_eqb mode encodeFragment && one_of "!()*" c then false
  else true.

(** First loop of [unescape]: count [%], check that they are well formed.
    [None] when the loop finds nothing wrong. *)
Fixpoint unescape_check (s : string) (mode : encoding) : option error :=
  match s with
  | EmptyString => None
  | String c s1 =>
      if Ascii.eqb c "%" then
        match s1 with
        | String a (String b s3) =>
            if negb (ishex a) || negb (ishex b) then
              Some (EscapeError (strings.take 3 s))
            else if encoding_eqb mode encodeHost && (unhex a <? 8)%nat
                    && negb (String.eqb (strings.take 3 s) "%25") then
              Some (EscapeError (strings.take 3 s))
            else if encoding_eqb mode encodeZone
                    && negb (String.eqb (strings.take 3 s) "%25")
                    && negb (Ascii.eqb (unhex2 a b) " ")
                    && shouldEscape (unhex2 a b) encodeHost then
              Some (EscapeError (strings.take 3 s))
            else unescape_check s3 mode
        | _ => Some (EscapeError (strings.take 3 s))
        end
      else if Ascii.eqb c "+" then unescape_check s1 mode
      else if (encoding_eqb mode encodeHost || encoding_eqb mode encodeZone)
              && (nat_of_ascii c <? 128)%nat && shouldEscape c encodeHost then
        Some (InvalidHostError (String c EmptyString))
      else unescape_check s1 mode
  end.

(** Second loop of [unescape]: the decoded bytes.  The first loop has
    checked that two hex digits follow every [%]. *)
Fixpoint unescape_build (s : string) (mode : encoding) : string :=
  match s with
  | EmptyString => EmptyString
  | String c s1 =>
      if Ascii.eqb c "%" then
        match s1 with
        | String a (String b s3) => String (unhex2 a b) (unescape_build s3 mode)
        | _ => EmptyString
        end
      else if Ascii.eqb c "+" then
        String (if encoding_eqb mode encodeQueryComponent then " "%char else "+"%char)
               (unescape_build s1 mode)
      else String c (unescape_build s1 mode)
  end.

Definition unescape (s : string) (mode : encoding) : result string :=
  match unescape_check s mode with
  | Some e => Err e
  | None =>
      let n := strings.CountByte s "%" in
      let hasPlus := (0 <? strings.CountByte s "+")%nat
                     && encoding_eqb mode encodeQueryComponent in
      if (n =? 0)%nat && negb hasPlus then Ok s
      else Ok (unescape_build s mode)
  end.

Fixpoint escape_count (s : string) (mode : encoding) : nat * nat :=
  match s with
  | EmptyString => (0, 0)
  | String c s' =>
      let '(spaceCount, hexCount) := escape_count s' mode in
      if shouldEscape c mode then
        if Ascii.eqb c " " && encoding_eqb mode encodeQueryComponent
        then (S spaceCount, hexCount) else (spaceCount, S hexCount)
      else (spaceCount, hexCount)
  end.

Definition hexdigit (i : nat) : ascii := nth i (bytes upperhex) "0"%char.

Fixpoint escape_build (s : string) (mode : encoding) : string :=
  match s with
  | EmptyString => EmptyString
  | String c s' =>
      if Ascii.eqb c " " && encoding_eqb mode encodeQueryComponent then
        String "+" (escape_build s' mode)
      else if shouldEscape c mode then
        String "%" (String (hexdigit (nat_of_ascii c / 16))
                   (String (hexdigit (nat_of_ascii c mod 16)) (escape_build s' mode)))
      else String c (escape_build s' mode)
  end.

Definition escape (s : string) (mode : encoding) : string :=
  let '(spaceCount, hexCount) := escape_count s mode in
  if (spaceCount =? 0)%nat && (hexCount =? 0)%nat then s
  else escape_build s mode.

Record Userinfo : Type := {
  username : string;
  password : string;
  passwordSet : bool
}.

Record URL : Type := {
  Scheme : string;
  Opaque : string;        (* encoded opaque data *)
  User : option Userinfo; (* username and password information *)
  Host : string;          (* host or host:port *)
  Path : string;          (* path (relative paths may omit leading slash) *)
  RawPath : string;       (* encoded path hint *)
  OmitHost : bool;        (* do not emit empty host (authority) *)
  ForceQuery : bool;      (* append a query ('?') even if RawQuery is empty *)
  RawQuery : string;      (* encoded query values, without '?' *)
  Fragment : string;      (* fragment for references, without '#' *)
  RawFragment : string    (* encoded fragment hint *)
}.

(** [new(URL)] *)
Definition zero : URL :=
  {| Scheme := ""; Opaque := ""; User := None; Host := ""; Path := "";
     RawPath := ""; OmitHost := false; ForceQuery := false; RawQuery := "";
     Fragment := ""; RawFragment := "" |}.

Definition stringContainsCTLByte (s : string) : bool :=
  existsb (fun b => (nat_of_ascii b <? 32)%nat || (nat_of_ascii b =? 127)%nat) (bytes s).

(** [getScheme]: [(scheme, path)] or an error.  [i] is the loop index and
    [rest] is [rawURL[i:]]. *)
Fixpoint getScheme_from (rawURL : string) (i : nat) (rest : string)
  : result (string * string) :=
  match rest with
  | EmptyString => Ok ("", rawURL)
  | String c rest' =>
      if between "a" "z" c || between "A" "Z" c then
        getScheme_from rawURL (S i) rest'
      else if between "0" "9" c || one_of "+-." c then
        if (i =? 0)%nat then Ok ("", rawURL)
        else getScheme_from rawURL (S i) rest'
      else if Ascii.eqb c ":" then
        if (i =? 0)%nat then Err (errors_New "missing protocol scheme")
        else Ok (strings.take i rawURL, strings.drop (i + 1) rawURL)
      else
        (* an invalid character, so there is no valid scheme *)
        Ok ("", rawURL)
  end.
Definition getScheme (rawURL : string) : result (string * string) :=
  getScheme_from rawURL 0 rawURL.

Definition validOptionalPort (port : string) : bool :=
  match port with
  | EmptyString => true
  | String c digits =>
      if negb (Ascii.eqb c ":") then false
      else forallb (between "0" "9") (bytes digits)
  end.

Definition validUserinfo (s : string) : bool :=
  forallb (fun r => alphanum r || one_of "-._:~!$&'()*+,;=%@" r) (bytes s).

(** [parseHost] parses host as an authority without user information. *)
Definition parseHost (host : string) : result string :=
  if strings.HasPrefix host "[" then
    (* an IP-Literal in RFC 3986 and RFC 6874 *)
    match strings.LastIndex host "]" with
    | None => Err (errors_New "missing ']' in host")
    | Some i =>
        let colonPort := strings.drop (i + 1) host in
        if negb (validOptionalPort colonPort) then
          Err (fmt_Errorf "invalid port %q after host" [a_string colonPort])
        else
          match strings.Index (strings.take i host) "%25" with
          | Some zone =>
              try host1 <- unescape (strings.take zone host) encodeHost;
              try host2 <- unescape (strings.take (i - zone) (strings.drop zone host)) encodeZone;
              try host3 <- unescape (strings.drop i host) encodeHost;
              Ok (host1 ++ host2 ++ host3)%string
          | None => unescape host encodeHost
          end
    end
  else
    match strings.LastIndex host ":" with
    | Some i =>
        let colonPort := strings.drop i host in
        if negb (validOptionalPort colonPort) then
          Err (fmt_Errorf "invalid port %q after host" [a_string colonPort])
        else unescape host encodeHost
    | None => unescape host encodeHost
    end.

Definition parseAuthority (authority : string) : result (option Userinfo * string) :=
  let i := strings.LastIndex authority "@" in
  try host <- match i with
              | None => parseHost authority
              | Some i => parseHost (strings.drop (i + 1) authority)
              end;
  match i with
  | None => Ok (None, host)
  | Some i =>
      let userinfo := strings.take i authority in
      if negb (validUserinfo userinfo) then
        Err (errors_New "net/url: invalid userinfo")
      else if negb (strings.Contains userinfo ":") then
        try userinfo <- unescape userinfo encodeUserPassword;
        Ok (Some {| username := userinfo; password := ""; passwordSet := false |}, host)
      else
        let '(username, password, _) := strings.Cut userinfo ":" in
        try username <- unescape username encodeUserPassword;
        try password <- unescape password encodeUserPassword;
        Ok (Some {| username := username; password := password; passwordSet := true |}, host)
  end.

(** [u.setPath(p)]: the fields [Path] and [RawPath]. *)
Definition setPath (p : string) : result (string * string) :=
  try path <- unescape p encodePath;
  if String.eqb p (escape path encodePath) then Ok (path, "")
  else Ok (path, p).

(** [u.setFragment(f)]: the fields [Fragment] and [RawFragment]. *)
Definition setFragment (f : string) : result (string * string) :=
  try frag <- unescape f encodeFragment;
  if String.eqb f (escape frag encodeFragment) then Ok (frag, "")
  else Ok (frag, f).

Definition with_Path (u : URL) (pr : string * string) : URL :=
  {| Scheme := Scheme u; Opaque := Opaque u; User := User u; Host := Host u;
     Path := fst pr; RawPath := snd pr; OmitHost := OmitHost u;
     ForceQuery := ForceQuery u; RawQuery := RawQuery u;
     Fragment := Fragment u; RawFragment := RawFragment u |}.

Definition with_Fragment (u : URL) (fr : string * string) : URL :=
  {| Scheme := Scheme u; Opaque := Opaque u; User := User u; Host := Host u;
     Path := Path u; RawPath := RawPath u; OmitHost := OmitHost u;
     ForceQuery := ForceQuery u; RawQuery := RawQuery u;
     Fragment := fst fr; RawFragment := snd fr |}.

(** [u.Host = host] *)
Definition with_Host (u : URL) (host : string) : URL :=
  {| Scheme := Scheme u; Opaque := Opaque u; User := User u; Host := host;
     Path := Path u; RawPath := RawPath u; OmitHost := OmitHost u;
     ForceQuery := ForceQuery u; RawQuery := RawQuery u;
     Fragment := Fragment u; RawFragment := RawFragment u |}.

(** [parse] parses a URL from a string in one of two contexts. *)
Definition parse (rawURL : string) (viaRequest : bool) : result URL :=
  if stringContainsCTLByte rawURL then
    Err (errors_New "net/url: invalid control character in URL")
  else if String.eqb rawURL "" && viaRequest then
    Err (errors_New "empty url")
  else if String.eqb rawURL "*" then
    Ok (with_Path zero ("*", ""))
  else
    try sp <- getScheme rawURL;
    let scheme := strings.ToLower (fst sp) in
    let rest := snd sp in
    let '(rest, rawquery, forcequery) :=
      if strings.HasSuffix rest "?" && (strings.CountByte rest "?" =? 1)%nat then
        (strings.take (String.length rest - 1) rest, "", true)
      else
        let '(before, after, _) := strings.Cut rest "?" in (before, after, false) in
    let u0 := {| Scheme := scheme; Opaque := ""; User := None; Host := "";
                 Path := ""; RawPath := ""; OmitHost := false;
                 ForceQuery := forcequery; RawQuery := rawquery;
                 Fragment := ""; RawFragment := "" |} in
    if negb (strings.HasPrefix rest "/") && negb (String.eqb scheme "") then
      (* rootless paths per RFC 3986 are opaque *)
      Ok {| Scheme := scheme; Opaque := rest; User := None; Host := "";
            Path := ""; RawPath := ""; OmitHost := false;
            ForceQuery := forcequery; RawQuery := rawquery;
            Fragment := ""; RawFragment := "" |}
    else if negb (strings.HasPrefix rest "/") && viaRequest then
      Err (errors_New "invalid URI for request")
    else if negb (strings.HasPrefix rest "/")
            && strings.Contains (fst (fst (strings.Cut rest "/"))) ":" then
      Err (errors_New "first path segment in URL cannot contain colon")
    else if (negb (String.eqb scheme "")
             || negb viaRequest && negb (strings.HasPrefix rest "///"))
            && strings.HasPrefix rest "//" then
      let authority := strings.drop 2 rest in
      let '(authority, rest) :=
        match strings.Index authority "/" with
        | Some i => (strings.take i authority, strings.drop i authority)
        | None => (authority, "")
        end in
      try uh <- parseAuthority authority;
      try pr <- setPath rest;
      Ok {| Scheme := scheme; Opaque := ""; User := fst uh; Host := snd uh;
            Path := fst pr; RawPath := snd pr; OmitHost := false;
            ForceQuery := forcequery; RawQuery := rawquery;
            Fragment := ""; RawFragment := "" |}
    else
      (* OmitHost is set when rawURL has an empty host (authority) *)
      let omit := negb (String.eqb scheme "") && strings.HasPrefix rest "/" in
      try pr <- setPath rest;
      Ok {| Scheme := scheme; Opaque := ""; User := None; Host := "";
            Path := fst pr; RawPath := snd pr; OmitHost := omit;
            ForceQuery := forcequery; RawQuery := rawquery;
            Fragment := ""; RawFragment := "" |}.

(** [Parse] parses a raw url into a URL structure. *)
Definition Parse (rawURL : string) : result URL :=
  (* Cut off #frag *)
  let '(u, frag, _) := strings.Cut rawURL "#" in
  match parse u false with
  | Err err => Err (url_Error "parse" u err)
  | Ok url =>
      if String.eqb frag "" then Ok url
      else match setFragment frag with
           | Err err => Err (url_Error "parse" rawURL err)
           | Ok fr => Ok (with_Fragment url fr)
           end
  end.

(** [splitHostPort] separates host and port; brackets of an IPv6 literal
    are removed from the host. *)
Definition splitHostPort (hostPort : string) : string * string :=
  let '(host, port) :=
    match strings.LastIndex hostPort ":" with
    | Some colon =>
        if validOptionalPort (strings.drop colon hostPort)
        then (strings.take colon hostPort, strings.drop (colon + 1) hostPort)
        else (hostPort, "")
    | None => (hostPort, "")
    end in
  if strings.HasPrefix host "[" && strings.HasSuffix host "]"
  then (strings.take (String.length host - 2) (strings.drop 1 host), port)
  else (host, port).

Definition Hostname (u : URL) : string := fst (splitHostPort (Host u)).
Definition Port (u : URL) : string := snd (splitHostPort (Host u)).

Definition validEncoded (s : string) (mode : encoding) : bool :=
  forallb (fun c => one_of "!$&'()*+,;=:@[]%" c || negb (shouldEscape c mode)) (bytes s).

Definition EscapedPath (u : URL) : string :=
  let raw_ok :=
    negb (String.eqb (RawPath u) "") && validEncoded (RawPath u) encodePath
    && match unescape (RawPath u) encodePath with
       | Ok p => String.eqb p (Path u)
       | Err _ => false
       end in
  if raw_ok then RawPath u
  else if String.eqb (Path u) "*" then "*"
  else escape (Path u) encodePath.

Definition EscapedFragment (u : URL) : string :=
  let raw_ok :=
    negb (String.eqb (RawFragment u) "") && validEncoded (RawFragment u) encodeFragment
    && match unescape (RawFragment u) encodeFragment with
       | Ok f => String.eqb f (Fragment u)
       | Err _ => false
       end in
  if raw_ok then RawFragment u
  else escape (Fragment u) encodeFragment.

Definition Userinfo_String (ui : Userinfo) : string :=
  let s := escape (username ui) encodeUserPassword in
  if passwordSet ui then (s ++ ":" ++ escape (password ui) encodeUserPassword)%string
  else s.

Definition is_nil {A} (o : option A) : bool :=
  match o with None => true | Some _ => false end.

Definition nonempty (s : string) : bool := negb (String.eqb s "").

(** [String] reassembles the URL into a valid URL string. *)
Definition String (u : URL) : string :=
  let buf := if nonempty (Scheme u) then (Scheme u ++ ":")%string else "" in
  let buf :=
    if nonempty (Opaque u) then (buf ++ Opaque u)%string
    else
      let buf :=
        if nonempty (Scheme u) || nonempty (Host u) || negb (is_nil (User u)) then
          if OmitHost u && negb (nonempty (Host u)) && is_nil (User u) then
            (* omit empty host *)
            buf
          else
            let buf :=
              if nonempty (Host u) || nonempty (Path u) || negb (is_nil (User u))
              then (buf ++ "//")%string else buf in
            let buf :=
              match User u with
              | Some ui => (buf ++ Userinfo_String ui ++ "@")%string
              | None => buf
              end in
            if nonempty (Host u) then (buf ++ escape (Host u) encodeHost)%string
            else buf
        else buf in
      let path := EscapedPath u in
      let buf :=
        if nonempty path && negb (strings.HasPrefix path "/") && nonempty (Host u)
        then (buf ++ "/")%string else buf in
      let buf :=
        if (String.length buf =? 0)%nat
           && strings.Contains (fst (fst (strings.Cut path "/"))) ":"
        then (buf ++ "./")%string else buf in
      (buf ++ path)%string in
  let buf :=
    if ForceQuery u || nonempty (RawQuery u)
    then (buf ++ "?" ++ RawQuery u)%string else buf in
  if nonempty (Fragment u) then (buf ++ "#" ++ EscapedFragment u)%string
  else buf.

End url.

(** ** The collaborators: logger, [os], AWS SDK

    Only what the package touches.  A Go pointer field is an [option];
    [aws.String v] is [Some v]. *)

(** [time.Time], as an instant. *)
Definition Time : Type := Z.

Module log.
Inductive Level : Type :=
| PanicLevel | FatalLevel | ErrorLevel | WarnLevel | InfoLevel | DebugLevel
| TraceLevel.
End log.

Module os.
(** An open [*os.File], known by the name it was opened with. *)
Record File : Type := { Name : string }.
End os.

Module aws.

Record Endpoint : Type := { URL : string }.

(** [aws.EndpointResolverWithOptionsFunc]: from service and region. *)
Definition EndpointResolverWithOptionsFunc : Type :=
  string -> string -> result Endpoint.

(** [ClientLogMode] is a [uint64] bit field, counted from the top bit:
    [LogSigning = 1 << 63], [LogRetries], [LogRequest],
    [LogRequestWithBody], [LogResponse], ... *)
Definition ClientLogMode : Type := Z.
Definition LogRequestWithBody : ClientLogMode := Z.shiftl 1 60.
Definition LogResponse : ClientLogMode := Z.shiftl 1 59.

(** [aws.Config], as [config.LoadDefaultConfig] resolves it: region and
    credentials come from the SDK's ambient chain. *)
Record Config : Type := {
  Region : string;
  Credentials : string;
  EndpointResolverWithOptions : option EndpointResolverWithOptionsFunc;
  LogMode : ClientLogMode
}.

Definition String (v : string) : option string := Some v.

End aws.

Module config.
(** The load options (functions on [config.LoadOptions]) the package
    builds. *)
Inductive LoadOption : Type :=
| WithEndpointResolverWithOptions (v : aws.EndpointResolverWithOptionsFunc)
| WithClientLogMode (v : aws.ClientLogMode).
End config.

Module GetObjectInput.
Record t : Type := { Bucket : option string; Key : option string }.
End GetObjectInput.

Module PutObjectInput.
Record t : Type := { Bucket : option string; Key : option string; Body : os.File }.
End PutObjectInput.

Module ListObjectsV2Input.
Record t : Type := { Bucket : option string; Prefix : option string }.
End ListObjectsV2Input.

Module DeleteObjectInput.
Record t : Type := { Bucket : option string; Key : option string }.
End DeleteObjectInput.

Module types.
(** [types.Object] of a listing. *)
Record Object : Type := {
  Key : option string;
  LastModified : option Time;
  Size : Z
}.
End types.

Module ListObjectsV2Output.
Record t : Type := { Contents : list types.Object; IsTruncated : bool }.
End ListObjectsV2Output.

(** ** Programs: the calls to the collaborators, in order

    [Event X] is a call whose answer has type [X]. *)

Inductive Event : Type -> Type :=
| log_IsLevelEnabled (level : log.Level) : Event bool
| config_LoadDefaultConfig (optFns : list config.LoadOption) : Event (result aws.Config)
| os_Create (name : string) : Event (result os.File)
| os_Open (name : string) : Event (result os.File)
| File_Close (f : os.File) : Event (option error)
| Downloader_Download (cfg : aws.Config) (w : os.File) (input : GetObjectInput.t)
  : Event (result Z)
| Uploader_Upload (cfg : aws.Config) (input : PutObjectInput.t) : Event (result unit)
| Client_ListObjectsV2 (cfg : aws.Config) (params : ListObjectsV2Input.t)
  : Event (result ListObjectsV2Output.t)
| Client_DeleteObject (cfg : aws.Config) (params : DeleteObjectInput.t)
  : Event (result unit).

(** A program returns, panics, or makes a call and goes on with its answer. *)
Inductive prog (A : Type) : Type :=
| Ret (a : A)
| Panic (reason : string)
| Call {X : Type} (e : Event X) (k : X -> prog A).
Arguments Ret {A} a.
Arguments Panic {A} reason.
Arguments Call {A X} e k.

Fixpoint bind {A B : Type} (p : prog A) (f : A -> prog B) : prog B :=
  match p with
  | Ret a => f a
  | Panic reason => Panic reason
  | Call e k => Call e (fun x => bind (k x) f)
  end.

Definition call {X : Type} (e : Event X) : prog X := Call e Ret.

Notation "x <- p ;; q" := (bind p (fun x => q))
  (at level 61, p at next level, right associativity).

(** How a run ends. *)
Inductive outcome (A : Type) : Type :=
| Returned (a : A)
| Panicked (reason : string).
Arguments Returned {A} a.
Arguments Panicked {A} reason.

(** A call together with the answer it got. *)
Inductive entry : Type :=
| Entry {X : Type} (e : Event X) (x : X).

(** An environment answers every call from its state [W]. *)
Definition handler (W : Type) : Type := forall X : Type, Event X -> W -> X * W.

(** Running a program in an environment: how it ends, the final state of the
    environment, and the calls made, in order. *)
Fixpoint run {W A : Type} (h : handler W) (p : prog A) (w : W)
  : outcome A * W * list entry :=
  match p with
  | Ret a => (Returned a, w, [])
  | Panic reason => (Panicked reason, w, [])
  | Call e k =>
      let '(x, w1) := h _ e w in
      let '(o, w2, tr) := run h (k x) w1 in
      (o, w2, Entry e x :: tr)
  end.

(** The requests to the object store among the calls of a run. *)
Inductive request : Type :=
| GetObject (input : GetObjectInput.t)
| PutObject (input : PutObjectInput.t)
| ListObjects (params : ListObjectsV2Input.t)
| DeleteObject (params : DeleteObjectInput.t).

Definition request_of (en : entry) : option request :=
  match en with
  | Entry e _ =>
      match e with
      | Downloader_Download _ _ input => Some (GetObject input)
      | Uploader_Upload _ input => Some (PutObject input)
      | Client_ListObjectsV2 _ params => Some (ListObjects params)
      | Client_DeleteObject _ params => Some (DeleteObject params)
      | _ => None
      end
  end.

Fixpoint requests (tr : list entry) : list request :=
  match tr with
  | [] => []
  | en :: tr' =>
      match request_of en with
      | Some r => r :: requests tr'
      | None => requests tr'
      end
  end.

Definition trace_of {W A : Type} (h : handler W) (p : prog A) (w : W) : list entry :=
  snd (run h p w).

Definition outcome_of {W A : Type} (h : handler W) (p : prog A) (w : W) : outcome A :=
  fst (fst (run h p w)).

(** ** The package [s3] *)

Record S3 : Type := {
  url : url.URL;
  (* pathStyle option is not really used, but may be required at some point *)
  pathStyle : bool;
  region : string;
  endpoint : string;
  accessKeyId : string;
  secretAccessKey : string
}.

(** [type Option func(s *S3)]: the update an option makes to the client. *)
Definition Option : Type := S3 -> S3.

Definition WithPathStyle : Option :=
  fun s =>
    {| url := url s; pathStyle := true; region := region s; endpoint := endpoint s;
       accessKeyId := accessKeyId s; secretAccessKey := secretAccessKey s |}.

Definition WithRegion (region' : string) : Option :=
  fun s =>
    {| url := url s; pathStyle := pathStyle s; region := region'; endpoint := endpoint s;
       accessKeyId := accessKeyId s; secretAccessKey := secretAccessKey s |}.

Definition WithEndpoint (endpoint' : string) : Option :=
  fun s =>
    {| url := url s; pathStyle := pathStyle s; region := region s; endpoint := endpoint';
       accessKeyId := accessKeyId s; secretAccessKey := secretAccessKey s |}.

Definition WithAccessKeyId (accessKeyId' : string) : Option :=
  fun s =>
    {| url := url s; pathStyle := pathStyle s; region := region s; endpoint := endpoint s;
       accessKeyId := accessKeyId'; secretAccessKey := secretAccessKey s |}.

Definition WithSecretAccessKey (secretAccessKey' : string) : Option :=
  fun s =>
    {| url := url s; pathStyle := pathStyle s; region := region s; endpoint := endpoint s;
       accessKeyId := accessKeyId s; secretAccessKey := secretAccessKey' |}.

(** The options this package exports. *)
Inductive package_option : Option -> Prop :=
| po_PathStyle : package_option WithPathStyle
| po_Region r : package_option (WithRegion r)
| po_Endpoint e : package_option (WithEndpoint e)
| po_AccessKeyId k : package_option (WithAccessKeyId k)
| po_SecretAccessKey k : package_option (WithSecretAccessKey k).

(** [s := &S3{url: u}; for _, opt := range opts { opt(s) }; return s] *)
Definition New (u : url.URL) (opts : list Option) : S3 :=
  fold_left (fun s opt => opt s) opts
    {| url := u; pathStyle := false; region := ""; endpoint := "";
       accessKeyId := ""; secretAccessKey := "" |}.

Definition getEndpoint (endpoint : string) : string :=
  (* for some reason, the lookup gets flaky when the endpoint is 127.0.0.1
     so you have to set it to localhost explicitly. *)
  let e := endpoint in
  match url.Parse endpoint with
  | Ok u =>
      if String.eqb (url.Hostname u) "127.0.0.1" then
        let port := url.Port u in
        let host := "localhost" in
        let host := if negb (String.eqb port "") then (host ++ ":" ++ port)%string else host in
        url.String (url.with_Host u host)
      else e
  | Err _ => e
  end.

Definition getConfig (endpoint : string) : prog (result aws.Config) :=
  let cleanEndpoint := getEndpoint endpoint in
  let opts :=
    [config.WithEndpointResolverWithOptions
       (fun service region => Ok {| aws.URL := cleanEndpoint |})] in
  trace <- call (log_IsLevelEnabled log.TraceLevel);;
  let opts :=
    if trace : bool
    then opts ++ [config.WithClientLogMode (Z.lor aws.LogRequestWithBody aws.LogResponse)]
    else opts in
  call (config_LoadDefaultConfig opts).

(** [Pull] returns [(int64, error)]. *)
Definition Pull (s : S3) (source target : string) : prog (Z * option error) :=
  let bucket := url.Hostname (url s) in
  let path := path.Join [url.Path (url s); source] in
  (* The session the S3 Downloader will use *)
  cfg <- getConfig (endpoint s);;
  match cfg with
  | Err err => Ret (0%Z, Some (fmt_Errorf "failed to load AWS config: %v" [a_error err]))
  | Ok cfg =>
      (* Create a file to write the S3 Object contents to. *)
      f <- call (os_Create target);;
      match f with
      | Err err =>
          Ret (0%Z, Some (fmt_Errorf "failed to create target restore file %q, %v"
                                     [a_string target; a_error err]))
      | Ok f =>
          (* Write the contents of S3 Object to the file *)
          n <- call (Downloader_Download cfg f
                       {| GetObjectInput.Bucket := aws.String bucket;
                          GetObjectInput.Key := aws.String path |});;
          (* defer f.Close() *)
          _ <- call (File_Close f);;
          match n with
          | Err err => Ret (0%Z, Some (fmt_Errorf "failed to download file, %v" [a_error err]))
          | Ok n => Ret (n, None)
          end
      end
  end.

(** [Push] returns [(int64, error)]. *)
Definition Push (s : S3) (target source : string) : prog (Z * option error) :=
  let bucket := url.Hostname (url s) in
  let key := url.Path (url s) in
  (* The session the S3 Downloader will use *)
  cfg <- getConfig (endpoint s);;
  match cfg with
  | Err err => Ret (0%Z, Some (fmt_Errorf "failed to load AWS config: %v" [a_error err]))
  | Ok cfg =>
      f <- call (os_Open source);;
      match f with
      | Err err =>
          Ret (0%Z, Some (fmt_Errorf "failed to read input file %q, %v"
                                     [a_string source; a_error err]))
      | Ok f =>
          (* Write the contents of the file to the S3 object *)
          r <- call (Uploader_Upload cfg
                       {| PutObjectInput.Bucket := aws.String bucket;
                          PutObjectInput.Key := aws.String (path.Join [key; target]);
                          PutObjectInput.Body := f |});;
          (* defer f.Close() *)
          _ <- call (File_Close f);;
          match r with
          | Err err => Ret (0%Z, Some (fmt_Errorf "failed to upload file, %v" [a_error err]))
          | Ok _ => Ret (0%Z, None)
          end
      end
  end.

Definition Protocol (s : S3) : string := "s3".

Definition URL (s : S3) : string := url.String (url s).

(** [fs.FileInfo] *)
Class FileInfo (T : Type) : Type := {
  Name : T -> string;
  Size : T -> Z;
  Mode : T -> Z;
  ModTime : T -> Time;
  IsDir : T -> bool;
  Sys : T -> option unit
}.

Record s3FileInfo : Type := {
  name : string;
  lastModified : Time;
  size : Z
}.

#[export] Instance s3FileInfo_FileInfo : FileInfo s3FileInfo := {|
  Name s := name s;
  Size s := size s;
  Mode _ := 0%Z;          (* Not applicable in S3 *)
  ModTime s := lastModified s;
  IsDir _ := false;       (* Not applicable in S3 *)
  Sys _ := None           (* Not applicable in S3 *)
|}.

(** [for _, item := range result.Contents { files = append(files, ...) }];
    [None] when [*item.Key] or [*item.LastModified] dereferences nil. *)
Fixpoint ReadDir_loop (items : list types.Object) (files : list s3FileInfo)
  : option (list s3FileInfo) :=
  match items with
  | [] => Some files
  | item :: items' =>
      match types.Key item, types.LastModified item with
      | Some key, Some modified =>
          ReadDir_loop items'
            (files ++ [{| name := key; lastModified := modified; size := types.Size item |}])
      | _, _ => None
      end
  end.

(** [ReadDir] returns [([]fs.FileInfo, error)]; a nil slice is [[]]. *)
Definition ReadDir (s : S3) (dirname : string) : prog (list s3FileInfo * option error) :=
  (* Get the AWS config *)
  cfg <- getConfig (endpoint s);;
  match cfg with
  | Err err => Ret ([], Some (fmt_Errorf "failed to load AWS config: %v" [a_error err]))
  | Ok cfg =>
      (* Call ListObjectsV2 with your bucket and prefix *)
      result <- call (Client_ListObjectsV2 cfg
                        {| ListObjectsV2Input.Bucket := aws.String (url.Hostname (url s));
                           ListObjectsV2Input.Prefix := aws.String dirname |});;
      match result with
      | Err err => Ret ([], Some (fmt_Errorf "failed to list objects, %v" [a_error err]))
      | Ok result =>
          (* Convert s3.Object to fs.FileInfo *)
          match ReadDir_loop (ListObjectsV2Output.Contents result) [] with
          | Some files => Ret (files, None)
          | None => Panic "invalid memory address or nil pointer dereference"
          end
      end
  end.

(** [Remove] returns [error]. *)
Definition Remove (s : S3) (target : string) : prog (option error) :=
  (* Get the AWS config *)
  cfg <- getConfig (endpoint s);;
  match cfg with
  | Err err => Ret (Some (fmt_Errorf "failed to load AWS config: %v" [a_error err]))
  | Ok cfg =>
      (* Call DeleteObject with your bucket and the key of the object *)
      r <- call (Client_DeleteObject cfg
                   {| DeleteObjectInput.Bucket := aws.String (url.Hostname (url s));
                      DeleteObjectInput.Key := aws.String target |});;
      match r with
      | Err err => Ret (Some (fmt_Errorf "failed to delete object, %v" [a_error err]))
      | Ok _ => Ret None
      end
  end.


(** ** An environment to run the package in: an object store and a file
    system in memory *)

Module sim.

Record object : Type := {
  bucket : string;
  key : string;
  body : string;
  modified : Time
}.

Record World : Type := {
  tracing : bool;                    (* the logger is at TraceLevel *)
  credentials : option string;       (* what the SDK's ambient chain finds *)
  ambient_region : string;
  files : list (string * string);    (* local files: name and contents *)
  store : list object;
  now : Time
}.

Definition with_files (w : World) (fs : list (string * string)) : World :=
  {| tracing := tracing w; credentials := credentials w;
     ambient_region := ambient_region w; files := fs; store := store w;
     now := now w |}.

Definition with_store (w : World) (st : list object) : World :=
  {| tracing := tracing w; credentials := credentials w;
     ambient_region := ambient_region w; files := files w; store := st;
     now := (now w + 1)%Z |}.

Definition read_file (w : World) (name : string) : option string :=
  option_map snd (find (fun p => String.eqb (fst p) name) (files w)).

Definition write_file (w : World) (name contents : string) : World :=
  with_files w
    ((name, contents) :: filter (fun p => negb (String.eqb (fst p) name)) (files w)).

Definition same_key (b k : string) (o : object) : bool :=
  String.eqb (bucket o) b && String.eqb (key o) k.

Definition load (w : World) (optFns : list config.LoadOption) : result aws.Config :=
  match credentials w with
  | None => Err (errors_New "failed to retrieve credentials")
  | Some c =>
      Ok (fold_left
            (fun cfg o =>
               match o with
               | config.WithEndpointResolverWithOptions v =>
                   {| aws.Region := aws.Region cfg; aws.Credentials := aws.Credentials cfg;
                      aws.EndpointResolverWithOptions := Some v;
                      aws.LogMode := aws.LogMode cfg |}
               | config.WithClientLogMode v =>
                   {| aws.Region := aws.Region cfg; aws.Credentials := aws.Credentials cfg;
                      aws.EndpointResolverWithOptions := aws.EndpointResolverWithOptions cfg;
                      aws.LogMode := v |}
               end)
            optFns
            {| aws.Region := ambient_region w; aws.Credentials := c;
               aws.EndpointResolverWithOptions := None; aws.LogMode := 0%Z |})
  end.

Definition listed (o : object) : types.Object :=
  {| types.Key := Some (key o); types.LastModified := Some (modified o);
     types.Size := Z.of_nat (String.length (body o)) |}.

Definition env : handler World :=
  fun X e =>
    match e in Event X return World -> X * World with
    | log_IsLevelEnabled _ => fun w => (tracing w, w)
    | config_LoadDefaultConfig optFns => fun w => (load w optFns, w)
    | os_Create name => fun w => (Ok {| os.Name := name |}, write_file w name "")
    | os_Open name => fun w =>
        match read_file w name with
        | Some _ => (Ok {| os.Name := name |}, w)
        | None => (Err (errors_New "no such file or directory"), w)
        end
    | File_Close _ => fun w => (None, w)
    | Downloader_Download _ f input => fun w =>
        match GetObjectInput.Bucket input, GetObjectInput.Key input with
        | Some b, Some k =>
            match find (same_key b k) (store w) with
            | Some o => (Ok (Z.of_nat (String.length (body o))),
                         write_file w (os.Name f) (body o))
            | None => (Err (errors_New "NoSuchKey"), w)
            end
        | _, _ => (Err (errors_New "missing required field"), w)
        end
    | Uploader_Upload _ input => fun w =>
        match PutObjectInput.Bucket input, PutObjectInput.Key input,
              read_file w (os.Name (PutObjectInput.Body input)) with
        | Some b, Some k, Some contents =>
            (Ok tt,
             with_store w
               ({| bucket := b; key := k; body := contents; modified := now w |}
                  :: filter (fun o => negb (same_key b k o)) (store w)))
        | _, _, _ => (Err (errors_New "missing required field"), w)
        end
    | Client_ListObjectsV2 _ params => fun w =>
        match ListObjectsV2Input.Bucket params, ListObjectsV2Input.Prefix params with
        | Some b, Some p =>
            (Ok {| ListObjectsV2Output.Contents :=
                     map listed
                         (filter (fun o => String.eqb (bucket o) b
                                           && strings.HasPrefix (key o) p) (store w));
                   ListObjectsV2Output.IsTruncated := false |}, w)
        | _, _ => (Err (errors_New "missing required field"), w)
        end
    | Client_DeleteObject _ params => fun w =>
        match DeleteObjectInput.Bucket params, DeleteObjectInput.Key params with
        | Some b, Some k =>
            (Ok tt, with_store w (filter (fun o => negb (same_key b k o)) (store w)))
        | _, _ => (Err (errors_New "missing required field"), w)
        end
    end.

(** A location from its string form ([url.Parse], ignoring the error). *)
Definition location (raw : string) : url.URL :=
  match url.Parse raw with
  | Ok u => u
  | Err _ => url.zero
  end.

Definition world0 : World :=
  {| tracing := false; credentials := Some "ambient"; ambient_region := "us-east-1";
     files := [("/tmp/dump.tgz", "hello world")];
     store := [ {| bucket := "bucket"; key := "/prefix/a/b.txt"; body := "abc"; modified := 7%Z |};
                {| bucket := "bucket"; key := "prefix/a/b.txt"; body := "defgh"; modified := 8%Z |};
                {| bucket := "bucket"; key := "prefix/c.txt"; body := ""; modified := 9%Z |};
                {| bucket := "other"; key := "prefix/d.txt"; body := "x"; modified := 10%Z |} ];
     now := 100%Z |}.

End sim.

(** ** Invariant of the loop of [path.Clean] *)

(** The last byte written is a slash. *)
Definition ends_slash (l : list ascii) : bool := path.is_slash (last l "."%char).

Definition slash_free (l : list ascii) : bool :=
  forallb (fun c => negb (path.is_slash c)) l.

(** What the loop of [Clean] keeps true of its buffer [out] and of [dotdot]:
    no two adjacent slashes; a trailing slash only as the root; [dotdot]
    inside the buffer, and the same for the part before [dotdot]. *)
Record clean_inv (rooted : bool) (out : list ascii) (dotdot : nat) : Prop := {
  inv_nods : path.double_slash out = false;
  inv_end : ends_slash out = true -> out = ["/"%char] /\ rooted = true;
  inv_le : dotdot <= length out;
  inv_dd : ends_slash (firstn dotdot out) = true -> dotdot = 1 /\ rooted = true
}.

(** ** Notions the statements use *)

(** [getConfig] gives a configuration in this environment. *)
Definition config_loads {W : Type} (h : handler W) (endpoint : string) (w : W) : bool :=
  match outcome_of h (getConfig endpoint) w with
  | Returned (Ok _) => true
  | _ => false
  end.

(** The client [s] at another key prefix (location path). *)
Definition with_prefix (s : S3) (p : string) : S3 :=
  {| url := url.with_Path (url s) (p, ""); pathStyle := pathStyle s; region := region s;
     endpoint := endpoint s; accessKeyId := accessKeyId s;
     secretAccessKey := secretAccessKey s |}.

(** Sample clients. *)
Module samples.

Definition client : S3 :=
  New (sim.location "s3://bucket/prefix")
      [WithRegion "us-east-1"; WithEndpoint "http://127.0.0.1:9000"].


End samples.

(** ** Canonical S3 locations

    [s3://bucket] or [s3://bucket/key...]: a bucket name of lower-case
    letters, digits, dots and hyphens, and a key prefix of unreserved bytes
    and slashes. *)

Fixpoint all_bytes (P : ascii -> bool) (s : string) : bool :=
  match s with
  | EmptyString => true
  | String c s' => P c && all_bytes P s'
  end.

Definition bucket_byte (c : ascii) : bool :=
  between "a" "z" c || between "0" "9" c || url.one_of "-." c.

Definition key_byte (c : ascii) : bool :=
  url.alphanum c || url.one_of "-_.~/" c.




(** The byte is not [c]. *)
Definition is_not (c : ascii) : ascii -> bool := fun d => negb (Ascii.eqb d c).

(** ** The calls of a run, one by one

    A [step] is a call with its answer, without the dependency of the
    answer's type on the call. *)

Inductive step : Type :=
| s_IsLevelEnabled (level : log.Level) (enabled : bool)
| s_LoadDefaultConfig (optFns : list config.LoadOption) (answer : result aws.Config)
| s_Create (name : string) (answer : result os.File)
| s_Open (name : string) (answer : result os.File)
| s_Close (f : os.File) (answer : option error)
| s_Download (cfg : aws.Config) (w : os.File) (input : GetObjectInput.t) (answer : result Z)
| s_Upload (cfg : aws.Config) (input : PutObjectInput.t) (answer : result unit)
| s_ListObjectsV2 (cfg : aws.Config) (params : ListObjectsV2Input.t)
                  (answer : result ListObjectsV2Output.t)
| s_DeleteObject (cfg : aws.Config) (params : DeleteObjectInput.t) (answer : result unit).

Definition step_of (en : entry) : step :=
  match en with
  | Entry e x =>
      match e in Event X return X -> step with
      | log_IsLevelEnabled level => s_IsLevelEnabled level
      | config_LoadDefaultConfig optFns => s_LoadDefaultConfig optFns
      | os_Create name => s_Create name
      | os_Open name => s_Open name
      | File_Close f => s_Close f
      | Downloader_Download cfg w input => s_Download cfg w input
      | Uploader_Upload cfg input => s_Upload cfg input
      | Client_ListObjectsV2 cfg params => s_ListObjectsV2 cfg params
      | Client_DeleteObject cfg params => s_DeleteObject cfg params
      end x
  end.

Definition steps_of {W A : Type} (h : handler W) (p : prog A) (w : W) : list step :=
  map step_of (trace_of h p w).

(** The files a run got open, and the files it closed, in order. *)
Fixpoint opened (st : list step) : list os.File :=
  match st with
  | [] => []
  | s_Create _ (Ok f) :: st' => f :: opened st'
  | s_Open _ (Ok f) :: st' => f :: opened st'
  | _ :: st' => opened st'
  end.

Fixpoint closed (st : list step) : list os.File :=
  match st with
  | [] => []
  | s_Close f _ :: st' => f :: closed st'
  | _ :: st' => closed st'
  end.


(** The step is a request to the object store. *)
Definition store_step (s : step) : bool :=
  match s with
  | s_Download _ _ _ _ | s_Upload _ _ _ | s_ListObjectsV2 _ _ _ | s_DeleteObject _ _ _ => true
  | _ => false
  end.

(** An environment that refuses the calls [deny] picks and answers the
    others as [h] does. *)
Definition refusing {W : Type} (deny : forall X : Type, Event X -> option X)
           (h : handler W) : handler W :=
  fun X e w =>
    match deny X e with
    | Some x => (x, w)
    | None => h X e w
    end.

(** A disk on which no file can be created. *)
Definition read_only_disk : forall X : Type, Event X -> option X :=
  fun X e =>
    match e in Event X return option X with
    | os_Create _ => Some (Err (errors_New "read-only file system"))
    | _ => None
    end.

(** A store that denies every write, listing and delete. *)
Definition access_denied : forall X : Type, Event X -> option X :=
  fun X e =>
    match e in Event X return option X with
    | Uploader_Upload _ _ => Some (Err (errors_New "AccessDenied"))
    | Client_ListObjectsV2 _ _ => Some (Err (errors_New "AccessDenied"))
    | Client_DeleteObject _ _ => Some (Err (errors_New "AccessDenied"))
    | _ => None
    end.

(** A store whose listing has an object without key. *)
Definition keyless_listing : forall X : Type, Event X -> option X :=
  fun X e =>
    match e in Event X return option X with
    | Client_ListObjectsV2 _ _ =>
        Some (Ok {| ListObjectsV2Output.Contents :=
                      [{| types.Key := None; types.LastModified := Some 1%Z;
                          types.Size := 0%Z |}];
                    ListObjectsV2Output.IsTruncated := false |})
    | _ => None
    end.

(** Two options of the package that set the same field. *)
Inductive same_field : Option -> Option -> Prop :=
| sf_PathStyle : same_field WithPathStyle WithPathStyle
| sf_Region r r' : same_field (WithRegion r) (WithRegion r')
| sf_Endpoint e e' : same_field (WithEndpoint e) (WithEndpoint e')
| sf_AccessKeyId k k' : same_field (WithAccessKeyId k) (WithAccessKeyId k')
| sf_SecretAccessKey k k' : same_field (WithSecretAccessKey k) (WithSecretAccessKey k').

(** Two options of the package that set different fields. *)
Inductive other_field : Option -> Option -> Prop :=
| of_PathStyle_Region r : other_field WithPathStyle (WithRegion r)
| of_PathStyle_Endpoint e : other_field WithPathStyle (WithEndpoint e)
| of_PathStyle_AccessKeyId k : other_field WithPathStyle (WithAccessKeyId k)
| of_PathStyle_SecretAccessKey k : other_field WithPathStyle (WithSecretAccessKey k)
| of_Region_Endpoint r e : other_field (WithRegion r) (WithEndpoint e)
| of_Region_AccessKeyId r k : other_field (WithRegion r) (WithAccessKeyId k)
| of_Region_SecretAccessKey r k : other_field (WithRegion r) (WithSecretAccessKey k)
| of_Endpoint_AccessKeyId e k : other_field (WithEndpoint e) (WithAccessKeyId k)
| of_Endpoint_SecretAccessKey e k : other_field (WithEndpoint e) (WithSecretAccessKey k)
| of_AccessKeyId_SecretAccessKey k k' :
    other_field (WithAccessKeyId k) (WithSecretAccessKey k')
| of_sym o o' : other_field o o' -> other_field o' o.

(** A world in which the SDK finds no credentials. *)
Definition locked_out : sim.World :=
  {| sim.tracing := true; sim.credentials := None; sim.ambient_region := "";
     sim.files := sim.files sim.world0; sim.store := sim.store sim.world0;
     sim.now := 100%Z |}.

(** An object of a listing without key or without modification time. *)
Definition incomplete (item : types.Object) : Prop :=
  types.Key item = None \/ types.LastModified item = None.

(** A plain path segment: not empty, without slash, not starting with a
    dot. *)
Definition plain_segment (x : string) : Prop :=
  x <> "" /\ all_bytes (is_not "/") x = true /\ strings.HasPrefix x "." = false.

(** The port part of an authority: nothing, or a colon and the digits. *)
Definition port_suffix (digits : string) : string :=
  if String.eqb digits "" then "" else String ":" digits.

(** What [url.Parse] makes of [scheme://host/path] without user, query and
    fragment. *)
Definition plain_url (scheme host path : string) : url.URL :=
  {| url.Scheme := scheme; url.Opaque := ""; url.User := None; url.Host := host;
     url.Path := path; url.RawPath := ""; url.OmitHost := false;
     url.ForceQuery := false; url.RawQuery := ""; url.Fragment := "";
     url.RawFragment := "" |}.

(** A store whose listing is cut short: one object, and more to come. *)
Definition truncated_listing : forall X : Type, Event X -> option X :=
  fun X e =>
    match e in Event X return option X with
    | Client_ListObjectsV2 _ _ =>
        Some (Ok {| ListObjectsV2Output.Contents :=
                      [{| types.Key := Some "prefix/0001"; types.LastModified := Some 1%Z;
                          types.Size := 4%Z |}];
                    ListObjectsV2Output.IsTruncated := true |})
    | _ => None
    end.

(** The options of the package other than [WithEndpoint]. *)
Inductive not_endpoint_option : Option -> Prop :=
| ne_PathStyle : not_endpoint_option WithPathStyle
| ne_Region r : not_endpoint_option (WithRegion r)
| ne_AccessKeyId k : not_endpoint_option (WithAccessKeyId k)
| ne_SecretAccessKey k : not_endpoint_option (WithSecretAccessKey k).

(** * Theorems *)

(** ** [path]: fuel, and no double slash *)

Lemma copy_element_spec (rest out : list ascii) :
  exists elem,
    snd (path.copy_element rest out) = out ++ elem
    /\ slash_free elem = true
    /\ length (fst (path.copy_element rest out)) <= length rest
    /\ (path.is_slash (hd "/"%char rest) = false ->
        elem <> [] /\ length (fst (path.copy_element rest out)) < length rest).
Proof.
  revert out. induction rest as [|c rest IH]; intros out; simpl.
  - exists []. rewrite app_nil_r. repeat split; auto; discriminate.
  - destruct (path.is_slash c) eqn:Hc; simpl.
    + exists []. rewrite app_nil_r. repeat split; auto; discriminate.
    + destruct (IH (out ++ [c])) as (elem & H1 & H2 & H3 & _).
      exists (c :: elem). rewrite H1, <- app_assoc. simpl.
      rewrite Hc, H2. repeat split; auto; try discriminate; lia.
Qed.

(** The result of the loop does not depend on the fuel, once there is as
    much fuel as unread input. *)
Lemma clean_loop_fuel (n m : nat) (rooted : bool) (rest out : list ascii) (dotdot : nat) :
  length rest <= n -> length rest <= m ->
  path.clean_loop n rooted rest out dotdot = path.clean_loop m rooted rest out dotdot.
Proof.
  revert m rest out dotdot.
  induction n as [|n IH]; intros m rest out dotdot Hn Hm.
  - destruct rest; [|simpl in Hn; lia]. destruct m; reflexivity.
  - destruct m as [|m].
    + destruct rest; [reflexivity | simpl in Hm; lia].
    + destruct rest as [|c rest1]; [reflexivity|].
      simpl in Hn, Hm. cbn [path.clean_loop].
      assert (Htl : length (tl rest1) <= length rest1)
        by (destruct rest1; simpl; lia).
      destruct (path.is_slash c) eqn:Hc; [apply IH; lia|].
      destruct (path.is_dot c && path.at_end_or_slash rest1); [apply IH; lia|].
      destruct (path.is_dot c && path.is_dot (hd "/"%char rest1)
                && path.at_end_or_slash (tl rest1)).
      * destruct (dotdot <? length out)%nat; [apply IH; lia|].
        destruct (negb rooted); apply IH; lia.
      * match goal with
        | |- context [path.copy_element (c :: rest1) ?o] =>
            pose proof (copy_element_spec rest1 (o ++ [c])) as (elem & _ & _ & Hlen & _);
            cbn [path.copy_element]; rewrite Hc;
            destruct (path.copy_element rest1 (o ++ [c])) as [rest' out2]
        end.
        simpl in Hlen. apply IH; lia.
Qed.

Lemma ends_slash_snoc (l : list ascii) (c : ascii) :
  ends_slash (l ++ [c]) = path.is_slash c.
Proof. unfold ends_slash. now rewrite last_last. Qed.

Lemma double_slash_snoc (l : list ascii) (c : ascii) :
  path.double_slash (l ++ [c]) = path.double_slash l || (ends_slash l && path.is_slash c).
Proof.
  induction l as [|a l IH].
  { simpl. now rewrite andb_false_r. }
  destruct l as [|b l].
  - simpl. unfold ends_slash. simpl.
    now rewrite !andb_false_r, !orb_false_r.
  - change ((a :: b :: l) ++ [c]) with (a :: ((b :: l) ++ [c])).
    change (path.double_slash (a :: (b :: l) ++ [c]))
      with ((path.is_slash a && path.is_slash b) || path.double_slash ((b :: l) ++ [c])).
    rewrite IH.
    change (path.double_slash (a :: b :: l))
      with ((path.is_slash a && path.is_slash b) || path.double_slash (b :: l)).
    change (ends_slash (a :: b :: l)) with (ends_slash (b :: l)).
    now rewrite orb_assoc.
Qed.

Lemma double_slash_app_free (l elem : list ascii) :
  slash_free elem = true ->
  path.double_slash (l ++ elem) = path.double_slash l.
Proof.
  revert l. induction elem as [|c elem IH]; intros l H.
  - now rewrite app_nil_r.
  - simpl in H. apply andb_true_iff in H as [Hc H].
    change (l ++ c :: elem) with (l ++ [c] ++ elem).
    rewrite app_assoc, IH, double_slash_snoc by assumption.
    apply negb_true_iff in Hc. rewrite Hc, andb_false_r, orb_false_r. reflexivity.
Qed.

Lemma ends_slash_app_free (l elem : list ascii) :
  slash_free elem = true -> elem <> [] -> ends_slash (l ++ elem) = false.
Proof.
  intros H Hne.
  destruct (exists_last Hne) as (elem' & c & ->).
  rewrite app_assoc, ends_slash_snoc.
  unfold slash_free in H. rewrite forallb_app in H.
  apply andb_true_iff in H as [_ H]. simpl in H.
  rewrite andb_true_r in H. now apply negb_true_iff in H.
Qed.

Lemma double_slash_firstn (k : nat) (l : list ascii) :
  path.double_slash l = false -> path.double_slash (firstn k l) = false.
Proof.
  revert k. induction l as [|a l IH]; intros k H.
  - now rewrite firstn_nil.
  - destruct k as [|k]; [reflexivity|].
    simpl in H. apply orb_false_iff in H as [H1 H2].
    rewrite firstn_cons. simpl. rewrite (IH k H2), orb_false_r.
    destruct l as [|b l]; [now rewrite firstn_nil, andb_false_r|].
    destruct k as [|k]; [now rewrite andb_false_r|].
    rewrite firstn_cons. exact H1.
Qed.

(** Two adjacent bytes of a buffer without double slash are not both
    slashes. *)
Lemma double_slash_nth (l : list ascii) (i : nat) (d : ascii) :
  path.double_slash l = false -> S i < length l ->
  path.is_slash (nth i l d) = true -> path.is_slash (nth (S i) l d) = true -> False.
Proof.
  revert i. induction l as [|a l IH]; intros i H Hlen Hi HSi; [simpl in Hlen; lia|].
  simpl in H. apply orb_false_iff in H as [H1 H2].
  destruct i as [|i].
  - destruct l as [|b l]; [simpl in Hlen; lia|].
    simpl in Hi, HSi. rewrite Hi, HSi in H1. discriminate.
  - simpl in Hlen. apply (IH i H2); [lia|exact Hi|exact HSi].
Qed.

Lemma ends_slash_firstn (l : list ascii) (w : nat) (d : ascii) :
  0 < w <= length l -> ends_slash (firstn w l) = path.is_slash (nth (w - 1) l d).
Proof.
  intros Hw. unfold ends_slash.
  destruct w as [|w]; [lia|].
  replace (S w - 1) with w by lia.
  assert (Hlen : w < length l) by lia.
  rewrite <- (firstn_skipn w l) at 1.
  rewrite firstn_app, firstn_firstn, Nat.min_r by lia.
  rewrite length_firstn, Nat.min_l by lia.
  replace (S w - w) with 1 by lia.
  rewrite <- (firstn_skipn w l) at 3.
  rewrite app_nth2; rewrite length_firstn, Nat.min_l by lia; [|lia].
  rewrite Nat.sub_diag.
  destruct (skipn w l) as [|x t] eqn:Hs.
  - apply (f_equal (@length _)) in Hs. rewrite length_skipn in Hs. simpl in Hs. lia.
  - simpl. now rewrite last_last.
Qed.

Lemma backtrack_w_spec (out : list ascii) (dotdot w0 : nat) :
  dotdot <= w0 ->
  let w := path.backtrack_w out dotdot w0 in
  dotdot <= w <= w0
  /\ (w = dotdot \/ path.is_slash (nth w out "/"%char) = true).
Proof.
  induction w0 as [|w0 IH]; intros Hle; simpl.
  - split; [lia|]. left. lia.
  - destruct (Nat.ltb_spec dotdot (S w0)) as [Hlt|Hge]; simpl.
    + destruct (path.is_slash (nth (S w0) out "/"%char)) eqn:Hs; simpl.
      * split; [lia|]. right. exact Hs.
      * destruct IH as [IH1 IH2]; [lia|]. split; [lia|exact IH2].
    + split; [lia|]. left. lia.
Qed.

Lemma firstn_app_le {A : Type} (k : nat) (l x : list A) :
  k <= length l -> firstn k (l ++ x) = firstn k l.
Proof.
  intros H. rewrite firstn_app.
  replace (k - length l) with 0 by lia.
  now rewrite firstn_O, app_nil_r.
Qed.

Lemma clean_inv_init (rooted : bool) :
  clean_inv rooted (if rooted then ["/"%char] else []) (if rooted then 1 else 0).
Proof.
  destruct rooted; constructor; simpl; auto; try discriminate.
Qed.

(** A real path element: the separating slash if needed, then the bytes of
    the element. *)
Lemma clean_inv_element (rooted : bool) (out elem : list ascii) (dotdot : nat) :
  clean_inv rooted out dotdot -> slash_free elem = true -> elem <> [] ->
  clean_inv rooted
    ((if (rooted && negb (length out =? 1)%nat) || (negb rooted && negb (length out =? 0)%nat)
      then out ++ ["/"%char] else out) ++ elem)
    dotdot.
Proof.
  intros [Hds Hend Hle Hdd] Hfree Hne.
  destruct ((rooted && negb (length out =? 1)%nat)
            || (negb rooted && negb (length out =? 0)%nat)) eqn:Hcond.
  - assert (Hes : ends_slash out = false).
    { destruct (ends_slash out) eqn:E; [|reflexivity].
      destruct (Hend eq_refl) as [-> ->]. discriminate Hcond. }
    constructor.
    + rewrite double_slash_app_free, double_slash_snoc, Hds, Hes by assumption.
      reflexivity.
    + rewrite ends_slash_app_free by assumption. discriminate.
    + rewrite !length_app. lia.
    + rewrite <- app_assoc, firstn_app_le by assumption. exact Hdd.
  - constructor.
    + now rewrite double_slash_app_free.
    + rewrite ends_slash_app_free by assumption. discriminate.
    + rewrite length_app. lia.
    + rewrite firstn_app_le by assumption. exact Hdd.
Qed.

(** A [..] element that can backtrack. *)
Lemma clean_inv_backtrack (rooted : bool) (out : list ascii) (dotdot : nat) :
  clean_inv rooted out dotdot -> dotdot < length out ->
  clean_inv rooted (path.backtrack out dotdot) dotdot.
Proof.
  intros [Hds Hend Hle Hdd] Hlt. unfold path.backtrack.
  destruct (backtrack_w_spec out dotdot (length out - 1)) as [[Hw1 Hw2] Hw3]; [lia|].
  set (w := path.backtrack_w out dotdot (length out - 1)) in *.
  assert (Hfd : firstn dotdot (firstn w out) = firstn dotdot out)
    by (rewrite firstn_firstn, Nat.min_l by lia; reflexivity).
  constructor.
  - now apply double_slash_firstn.
  - intros Hes. destruct Hw3 as [Heq|Hsl].
    + rewrite Heq in *. destruct (Hdd Hes) as [H1 Hr]. split; [|exact Hr].
      rewrite H1 in *. destruct out as [|a out]; [simpl in Hlt; lia|].
      simpl in *. unfold ends_slash in Hes. simpl in Hes.
      unfold path.is_slash in Hes. apply Ascii.eqb_eq in Hes. now subst a.
    + exfalso. destruct (Nat.eq_dec w 0) as [H0|Hpos].
      * rewrite H0 in Hes. discriminate Hes.
      * rewrite (ends_slash_firstn out w "/"%char) in Hes by lia.
        apply (double_slash_nth out (w - 1) "/"%char Hds); [lia|exact Hes|].
        replace (S (w - 1)) with w by lia. exact Hsl.
  - rewrite length_firstn. lia.
  - rewrite Hfd. exact Hdd.
Qed.

(** A [..] element that cannot backtrack, in a path that is not rooted. *)
Lemma clean_inv_dotdot (out : list ascii) (dotdot : nat) :
  clean_inv false out dotdot ->
  let out2 := (if (0 <? length out)%nat then out ++ ["/"%char] else out)
                ++ ["."%char; "."%char] in
  clean_inv false out2 (length out2).
Proof.
  intros [Hds Hend Hle Hdd] out2.
  assert (Hes : ends_slash out = false).
  { destruct (ends_slash out) eqn:E; [|reflexivity].
    destruct (Hend eq_refl) as [_ H]. discriminate H. }
  assert (Hes2 : ends_slash out2 = false)
    by (apply ends_slash_app_free; [reflexivity|discriminate]).
  constructor.
  - unfold out2. rewrite double_slash_app_free by reflexivity.
    destruct (0 <? length out)%nat; [|exact Hds].
    now rewrite double_slash_snoc, Hds, Hes.
  - rewrite Hes2. discriminate.
  - lia.
  - rewrite firstn_all, Hes2. discriminate.
Qed.

(** The loop of [Clean] keeps its invariant. *)
Lemma clean_loop_inv (fuel : nat) (rooted : bool) (rest out : list ascii) (dotdot : nat) :
  clean_inv rooted out dotdot ->
  exists dotdot', clean_inv rooted (path.clean_loop fuel rooted rest out dotdot) dotdot'.
Proof.
  revert rest out dotdot.
  induction fuel as [|fuel IH]; intros rest out dotdot Hinv; [now exists dotdot|].
  destruct rest as [|c rest1]; [now exists dotdot|].
  cbn [path.clean_loop].
  destruct (path.is_slash c) eqn:Hc; [now apply IH|].
  destruct (path.is_dot c && path.at_end_or_slash rest1); [now apply IH|].
  destruct (path.is_dot c && path.is_dot (hd "/"%char rest1)
            && path.at_end_or_slash (tl rest1)).
  - destruct (Nat.ltb_spec dotdot (length out)) as [Hlt|Hge].
    + apply IH. now apply clean_inv_backtrack.
    + destruct rooted; cbn [negb]; [now apply IH|].
      apply IH. exact (clean_inv_dotdot out dotdot Hinv).
  - match goal with
    | |- context [path.copy_element (c :: rest1) ?o] =>
        destruct (copy_element_spec (c :: rest1) o) as (elem & H1 & H2 & _ & H4);
        destruct (path.copy_element (c :: rest1) o) as [rest' out2]
    end.
    simpl in H1. subst out2. destruct (H4 Hc) as [Hne _].
    apply IH. now apply clean_inv_element.
Qed.



(** ** Runs *)

Lemma run_bind {W A B : Type} (h : handler W) (p : prog A) (f : A -> prog B) (w : W) :
  run h (bind p f) w =
    match run h p w with
    | (Returned a, w1, tr1) =>
        let '(o, w2, tr2) := run h (f a) w1 in (o, w2, tr1 ++ tr2)
    | (Panicked reason, w1, tr1) => (Panicked reason, w1, tr1)
    end.
Proof.
  revert w. induction p as [a|reason|X e k IH]; intros w; simpl.
  - destruct (run h (f a) w) as [[o w2] tr2]. reflexivity.
  - reflexivity.
  - destruct (h X e w) as [x w1]. rewrite IH.
    destruct (run h (k x) w1) as [[[a|reason] w2] tr1]; [|reflexivity].
    destruct (run h (f a) w2) as [[o w3] tr2]. reflexivity.
Qed.

Lemma requests_app (tr1 tr2 : list entry) :
  requests (tr1 ++ tr2) = requests tr1 ++ requests tr2.
Proof.
  induction tr1 as [|en tr1 IH]; [reflexivity|].
  simpl. destruct (request_of en); simpl; now rewrite IH.
Qed.

(** [getConfig] asks the logger and the SDK's loader, never the object
    store, and returns what the loader answers. *)
Lemma run_getConfig {W : Type} (h : handler W) (endpoint : string) (w : W) :
  exists r w1 tr,
    run h (getConfig endpoint) w = (Returned r, w1, tr) /\ requests tr = [].
Proof.
  unfold getConfig, call. simpl.
  destruct (h bool (log_IsLevelEnabled log.TraceLevel) w) as [b w1].
  destruct b; simpl;
    match goal with
    | |- context [h _ (config_LoadDefaultConfig ?o) w1] =>
        destruct (h _ (config_LoadDefaultConfig o) w1) as [r w2]
    end; exists r, w2; eexists; split; reflexivity.
Qed.

(** Opens an operation: runs its [getConfig] and names the result. *)
Ltac open_config h s w :=
  let r := fresh "r" in
  let w1 := fresh "w" in
  let tr := fresh "tr" in
  let E := fresh "Ecfg" in
  let Hreq := fresh "Hreq" in
  unfold config_loads; unfold trace_of, outcome_of;
  destruct (run_getConfig h (endpoint s) w) as (r & w1 & tr & E & Hreq);
  rewrite ?run_bind, ?E; cbn [fst snd].

(** Answers the next call of the run in the goal. *)
Ltac answer h :=
  match goal with
  | |- context [h ?X ?e ?w] => destruct (h X e w) as [? ?]
  end.

(** ** The operations and their requests *)

Lemma ReadDir_requests {W : Type} (h : handler W) (w : W) (s : S3) (dirname : string) :
  requests (trace_of h (ReadDir s dirname) w) =
    if config_loads h (endpoint s) w
    then [ListObjects {| ListObjectsV2Input.Bucket := Some (url.Hostname (url s));
                         ListObjectsV2Input.Prefix := Some dirname |}]
    else [].
Proof.
  unfold ReadDir. open_config h s w.
  destruct r as [cfg|err]; simpl.
  - answer h.
    match goal with
    | |- context [match ?x with Ok _ => _ | Err _ => _ end] => destruct x
    end; simpl;
      [destruct (ReadDir_loop _ _)|]; simpl;
      now rewrite requests_app, Hreq.
  - now rewrite app_nil_r.
Qed.

Lemma Remove_requests {W : Type} (h : handler W) (w : W) (s : S3) (target : string) :
  requests (trace_of h (Remove s target) w) =
    if config_loads h (endpoint s) w
    then [DeleteObject {| DeleteObjectInput.Bucket := Some (url.Hostname (url s));
                          DeleteObjectInput.Key := Some target |}]
    else [].
Proof.
  unfold Remove. open_config h s w.
  destruct r as [cfg|err]; simpl.
  - answer h.
    match goal with
    | |- context [match ?x with Ok _ => _ | Err _ => _ end] => destruct x
    end; simpl; now rewrite requests_app, Hreq.
  - now rewrite app_nil_r.
Qed.

(** C3. ReadDir and Remove use their key argument literally: the one request
    ReadDir issues (when the configuration loads) lists the client's bucket
    with prefix [dirname], the one request Remove issues deletes the key
    [target] in the client's bucket, and neither operation depends on the
    location path of the client. *)
Theorem C3_ReadDir_Remove_use_key_literally :
  forall (W : Type) (h : handler W) (w : W) (s : S3) (dirname target : string),
    requests (trace_of h (ReadDir s dirname) w) =
      (if config_loads h (endpoint s) w
       then [ListObjects {| ListObjectsV2Input.Bucket := Some (url.Hostname (url s));
                            ListObjectsV2Input.Prefix := Some dirname |}]
       else [])
    /\ requests (trace_of h (Remove s target) w) =
      (if config_loads h (endpoint s) w
       then [DeleteObject {| DeleteObjectInput.Bucket := Some (url.Hostname (url s));
                             DeleteObjectInput.Key := Some target |}]
       else [])
    /\ (forall p : string,
          ReadDir (with_prefix s p) dirname = ReadDir s dirname
          /\ Remove (with_prefix s p) target = Remove s target).
Proof.
  intros W h w s dirname target.
  split; [apply ReadDir_requests|].
  split; [apply Remove_requests|].
  intros p. split; reflexivity.
Qed.

(** Answers every call of the run in the goal, by cases on the results. *)
Ltac drive h :=
  repeat (first
            [ answer h
            | match goal with
              | |- context [match ?x with Ok _ => _ | Err _ => _ end] => destruct x
              end ];
          cbn [run bind call fst snd]).

Lemma Pull_requests {W : Type} (h : handler W) (w : W) (s : S3) (source target : string) :
  let get := GetObject {| GetObjectInput.Bucket := Some (url.Hostname (url s));
                          GetObjectInput.Key := Some (path.Join [url.Path (url s); source]) |} in
  let reqs := requests (trace_of h (Pull s source target) w) in
  (reqs = [] \/ reqs = [get])
  /\ (forall n, outcome_of h (Pull s source target) w = Returned (n, None) -> reqs = [get]).
Proof.
  unfold Pull. open_config h s w.
  destruct r as [cfg|err]; cbn [run bind call fst snd]; drive h;
    rewrite requests_app, Hreq; cbn;
    (split; [auto | intros n Hn; first [reflexivity | discriminate Hn]]).
Qed.

Lemma Push_requests {W : Type} (h : handler W) (w : W) (s : S3) (target source : string) :
  let reqs := requests (trace_of h (Push s target source) w) in
  (reqs = []
   \/ exists f, reqs = [PutObject {| PutObjectInput.Bucket := Some (url.Hostname (url s));
                                     PutObjectInput.Key := Some (path.Join [url.Path (url s); target]);
                                     PutObjectInput.Body := f |}])
  /\ (forall n, outcome_of h (Push s target source) w = Returned (n, None) ->
                n = 0%Z /\ reqs <> []).
Proof.
  unfold Push. open_config h s w.
  destruct r as [cfg|err]; cbn [run bind call fst snd]; drive h;
    rewrite requests_app, Hreq; cbn;
    (split; [eauto | intros n Hn; first [discriminate Hn | inversion Hn; split; [reflexivity|discriminate]]]).
Qed.




(** C6. A successful Push returns the pair [(0, nil)], whatever was
    uploaded. *)
Theorem C6_Push_returns_zero_on_success :
  forall (W : Type) (h : handler W) (w : W) (s : S3) (target source : string) (n : Z),
    outcome_of h (Push s target source) w = Returned (n, None) -> n = 0%Z.
Proof.
  intros W h w s target source n H.
  destruct (Push_requests h w s target source) as [_ H2].
  now destruct (H2 n H).
Qed.

(** Uploading the eleven bytes of [/tmp/dump.tgz] succeeds and reports 0. *)
Lemma C6_Push_witness :
  sim.read_file sim.world0 "/tmp/dump.tgz" = Some "hello world"
  /\ exists n,
      outcome_of sim.env (Push samples.client "new.tgz" "/tmp/dump.tgz") sim.world0
      = Returned (n, None)
      /\ n = 0%Z.
Proof.
  split; [reflexivity|].
  exists 0%Z. split; [vm_compute; reflexivity|].
  apply (C6_Push_returns_zero_on_success
           sim.World sim.env sim.world0 samples.client "new.tgz" "/tmp/dump.tgz").
  vm_compute. reflexivity.
Defined.

(** The loop of ReadDir appends one entry per listed object, in order. *)
Lemma ReadDir_loop_spec (items : list types.Object) (acc files : list s3FileInfo) :
  ReadDir_loop items acc = Some files ->
  exists new,
    files = acc ++ new
    /\ map (fun f => Some (name f)) new = map types.Key items
    /\ map size new = map types.Size items
    /\ map (fun f => Some (lastModified f)) new = map types.LastModified items.
Proof.
  revert acc. induction items as [|item items IH]; intros acc H; simpl in H.
  - inversion H; subst. exists []. now rewrite app_nil_r.
  - destruct (types.Key item) as [k|] eqn:Hk; [|discriminate].
    destruct (types.LastModified item) as [t|] eqn:Ht; [|discriminate].
    destruct (IH _ H) as (new & -> & H1 & H2 & H3).
    eexists (_ :: new). rewrite <- app_assoc. split; [reflexivity|].
    simpl. now rewrite H1, H2, H3, Hk, Ht.
Qed.

(** The loop ends without a nil dereference when every listed object has
    its key and its modification time. *)
Lemma ReadDir_loop_total (items : list types.Object) (acc : list s3FileInfo) :
  Forall (fun item => types.Key item <> None /\ types.LastModified item <> None) items ->
  exists files, ReadDir_loop items acc = Some files.
Proof.
  intros H. revert acc. induction H as [|item items [Hk Ht] _ IH]; intros acc.
  - now exists acc.
  - simpl. destruct (types.Key item); [|contradiction].
    destruct (types.LastModified item); [|contradiction]. apply IH.
Qed.

(** C9. When ReadDir returns without error, its entries are the objects of
    the backend's listing answer, one entry per object and in the same
    order, with name, size and modification time copied from the object;
    every entry has [IsDir() = false] and [Mode() = 0]. *)
Theorem C9_ReadDir_entries_mirror_listing :
  forall (W : Type) (h : handler W) (w w' : W) (s : S3) (dirname : string)
         (files : list s3FileInfo) (tr : list entry),
    run h (ReadDir s dirname) w = (Returned (files, None), w', tr) ->
    exists cfg out tr0,
      tr = tr0 ++ [Entry (Client_ListObjectsV2 cfg
                            {| ListObjectsV2Input.Bucket := Some (url.Hostname (url s));
                               ListObjectsV2Input.Prefix := Some dirname |})
                         (Ok out)]
      /\ map (fun f => Some (Name f)) files = map types.Key (ListObjectsV2Output.Contents out)
      /\ map Size files = map types.Size (ListObjectsV2Output.Contents out)
      /\ map (fun f => Some (ModTime f)) files
         = map types.LastModified (ListObjectsV2Output.Contents out)
      /\ Forall (fun f => IsDir f = false /\ Mode f = 0%Z) files.
Proof.
  intros W h w w' s dirname files tr. unfold ReadDir.
  destruct (run_getConfig h (endpoint s) w) as (r & w1 & tr1 & E & _).
  rewrite run_bind, E.
  destruct r as [cfg|err]; cbn [run bind call fst snd]; [|discriminate].
  answer h.
  match goal with
  | |- context [match ?x with Ok _ => _ | Err _ => _ end] => destruct x as [out|err]
  end; cbn [run]; [|discriminate].
  destruct (ReadDir_loop (ListObjectsV2Output.Contents out) []) as [fs|] eqn:Hloop;
    cbn [run]; [|discriminate].
  intros H. inversion H; subst.
  destruct (ReadDir_loop_spec _ _ _ Hloop) as (new & -> & H1 & H2 & H3).
  exists cfg, out, tr1. simpl.
  repeat split; auto.
  apply Forall_forall. intros f _. split; reflexivity.
Qed.

Lemma C9_ReadDir_witness :
  exists files,
    outcome_of sim.env (ReadDir samples.client "prefix") sim.world0 = Returned (files, None)
    /\ map Name files = ["prefix/a/b.txt"; "prefix/c.txt"]
    /\ map Size files = [5%Z; 0%Z]
    /\ Forall (fun f => IsDir f = false /\ Mode f = 0%Z) files.
Proof.
  pose (files := [{| name := "prefix/a/b.txt"; lastModified := 8%Z; size := 5%Z |};
                  {| name := "prefix/c.txt"; lastModified := 9%Z; size := 0%Z |}]).
  pose (r := run sim.env (ReadDir samples.client "prefix") sim.world0).
  destruct (C9_ReadDir_entries_mirror_listing
              sim.World sim.env sim.world0 (snd (fst r)) samples.client "prefix"
              files (snd r))
    as (cfg & out & tr0 & _ & _ & _ & _ & Hdir).
  { vm_compute. reflexivity. }
  exists files. split; [vm_compute; reflexivity|].
  split; [reflexivity|]. split; [reflexivity|exact Hdir].
Defined.

(** ** Fields the operations never read *)

(** The operations are functions of the location and the endpoint only. *)
Lemma operations_read_url_and_endpoint (s1 s2 : S3) :
  url s1 = url s2 -> endpoint s1 = endpoint s2 ->
  forall (W : Type) (h : handler W) (w : W) (a b : string),
    run h (getConfig (endpoint s1)) w = run h (getConfig (endpoint s2)) w
    /\ run h (Pull s1 a b) w = run h (Pull s2 a b) w
    /\ run h (Push s1 a b) w = run h (Push s2 a b) w
    /\ run h (ReadDir s1 a) w = run h (ReadDir s2 a) w
    /\ run h (Remove s1 a) w = run h (Remove s2 a) w.
Proof.
  intros Hu He W h w a b.
  unfold Pull, Push, ReadDir, Remove. rewrite Hu, He. repeat split.
Qed.

(** C4. The accessKeyId and secretAccessKey fields never influence an
    operation: two clients that agree on every other field load the same
    configuration and run Pull, Push, ReadDir and Remove identically in
    every environment (same calls with the same arguments, same answers
    used, same result, same final state). *)
Theorem C4_credentials_fields_do_not_interfere :
  forall s1 s2 : S3,
    url s1 = url s2 -> pathStyle s1 = pathStyle s2 -> region s1 = region s2 ->
    endpoint s1 = endpoint s2 ->
    forall (W : Type) (h : handler W) (w : W) (a b : string),
      run h (getConfig (endpoint s1)) w = run h (getConfig (endpoint s2)) w
      /\ run h (Pull s1 a b) w = run h (Pull s2 a b) w
      /\ run h (Push s1 a b) w = run h (Push s2 a b) w
      /\ run h (ReadDir s1 a) w = run h (ReadDir s2 a) w
      /\ run h (Remove s1 a) w = run h (Remove s2 a) w.
Proof.
  intros s1 s2 Hu _ _ He. now apply operations_read_url_and_endpoint.
Qed.

Lemma C4_credentials_witness :
  let s1 := samples.client in
  let s2 := WithSecretAccessKey "wJalr" (WithAccessKeyId "AKIA" samples.client) in
  accessKeyId s1 <> accessKeyId s2
  /\ secretAccessKey s1 <> secretAccessKey s2
  /\ run sim.env (Pull s1 "a/b.txt" "/tmp/b.txt") sim.world0
     = run sim.env (Pull s2 "a/b.txt" "/tmp/b.txt") sim.world0.
Proof.
  intros s1 s2.
  split; [discriminate|]. split; [discriminate|].
  apply (C4_credentials_fields_do_not_interfere s1 s2); reflexivity.
Defined.

(** C10. The region and pathStyle fields never influence an operation: two
    clients that agree on every other field load the same configuration and
    run Pull, Push, ReadDir and Remove identically in every environment. *)
Theorem C10_region_pathStyle_do_not_interfere :
  forall s1 s2 : S3,
    url s1 = url s2 -> endpoint s1 = endpoint s2 ->
    accessKeyId s1 = accessKeyId s2 -> secretAccessKey s1 = secretAccessKey s2 ->
    forall (W : Type) (h : handler W) (w : W) (a b : string),
      run h (getConfig (endpoint s1)) w = run h (getConfig (endpoint s2)) w
      /\ run h (Pull s1 a b) w = run h (Pull s2 a b) w
      /\ run h (Push s1 a b) w = run h (Push s2 a b) w
      /\ run h (ReadDir s1 a) w = run h (ReadDir s2 a) w
      /\ run h (Remove s1 a) w = run h (Remove s2 a) w.
Proof.
  intros s1 s2 Hu He _ _. now apply operations_read_url_and_endpoint.
Qed.

Lemma C10_region_pathStyle_witness :
  let s1 := samples.client in
  let s2 := WithPathStyle (WithRegion "eu-west-3" samples.client) in
  region s1 <> region s2
  /\ pathStyle s1 <> pathStyle s2
  /\ run sim.env (Push s1 "new.tgz" "/tmp/dump.tgz") sim.world0
     = run sim.env (Push s2 "new.tgz" "/tmp/dump.tgz") sim.world0.
Proof.
  intros s1 s2.
  split; [discriminate|]. split; [discriminate|].
  apply (C10_region_pathStyle_do_not_interfere s1 s2); reflexivity.
Defined.

(** ** Endpoint normalization *)

(** C5. [getEndpoint] maps [http://127.0.0.1:9000] to
    [http://localhost:9000] and [http://127.0.0.1] to [http://localhost];
    an endpoint that parses with a host other than [127.0.0.1], and an
    endpoint that does not parse, are returned unchanged. *)
Theorem C5_getEndpoint_normalization :
  getEndpoint "http://127.0.0.1:9000" = "http://localhost:9000"
  /\ getEndpoint "http://127.0.0.1" = "http://localhost"
  /\ (forall (e : string) (u : url.URL),
        url.Parse e = Ok u -> url.Hostname u <> "127.0.0.1" -> getEndpoint e = e)
  /\ (forall (e : string) (err : error),
        url.Parse e = Err err -> getEndpoint e = e).
Proof.
  split; [vm_compute; reflexivity|].
  split; [vm_compute; reflexivity|].
  split.
  - intros e u Hp Hh. unfold getEndpoint. rewrite Hp.
    destruct (String.eqb_spec (url.Hostname u) "127.0.0.1"); [contradiction|reflexivity].
  - intros e err Hp. unfold getEndpoint. now rewrite Hp.
Qed.

Lemma C5_getEndpoint_witness :
  getEndpoint "https://s3.example.com:9000/base" = "https://s3.example.com:9000/base"
  /\ getEndpoint "127.0.0.1:9000" = "127.0.0.1:9000".
Proof.
  destruct C5_getEndpoint_normalization as (_ & _ & Hother & Hbad).
  split.
  - apply (Hother _ (sim.location "https://s3.example.com:9000/base")).
    + vm_compute. reflexivity.
    + vm_compute. discriminate.
  - apply (Hbad _ (url_Error "parse" "127.0.0.1:9000"
                     (errors_New "first path segment in URL cannot contain colon"))).
    vm_compute. reflexivity.
Defined.

(** ** [url.Parse] and [url.String] on canonical S3 locations *)

Lemma all_bytes_impl (P Q : ascii -> bool) (s : string) :
  (forall c, P c = true -> Q c = true) ->
  all_bytes P s = true -> all_bytes Q s = true.
Proof.
  intros HPQ. induction s as [|c s IH]; simpl; [reflexivity|].
  intros H. apply andb_true_iff in H as [H1 H2].
  now rewrite (HPQ c H1), IH.
Qed.

Lemma all_bytes_app (P : ascii -> bool) (s t : string) :
  all_bytes P (s ++ t) = all_bytes P s && all_bytes P t.
Proof.
  induction s as [|c s IH]; simpl; [reflexivity|].
  now rewrite IH, andb_assoc.
Qed.

Lemma all_bytes_forallb (P : ascii -> bool) (s : string) :
  forallb P (bytes s) = all_bytes P s.
Proof.
  induction s as [|c s IH]; simpl; [reflexivity|]. now rewrite <- IH.
Qed.

Lemma prefix_byte (c d : ascii) (s : string) :
  String.prefix (String c "") (String d s) = Ascii.eqb d c.
Proof.
  simpl. destruct (ascii_dec c d) as [->|Hne].
  - rewrite Ascii.eqb_refl. now destruct s.
  - symmetry. apply Ascii.eqb_neq. congruence.
Qed.

Lemma Index_from_absent (c : ascii) (s : string) (i : nat) :
  all_bytes (is_not c) s = true -> strings.Index_from i s (String c "") = None.
Proof.
  revert i. induction s as [|d s IH]; intros i H; [reflexivity|].
  simpl in H. apply andb_true_iff in H as [Hd Hs].
  unfold is_not in Hd. apply negb_true_iff in Hd.
  cbn [strings.Index_from]. rewrite prefix_byte, Hd. now apply IH.
Qed.

Lemma Index_from_sep (c : ascii) (s k : string) (i : nat) :
  all_bytes (is_not c) s = true ->
  strings.Index_from i (s ++ String c k) (String c "") = Some (i + String.length s).
Proof.
  revert i. induction s as [|d s IH]; intros i H.
  - cbn [append strings.Index_from]. rewrite prefix_byte, Ascii.eqb_refl.
    simpl. f_equal. lia.
  - simpl in H. apply andb_true_iff in H as [Hd Hs].
    unfold is_not in Hd. apply negb_true_iff in Hd.
    cbn [append strings.Index_from]. rewrite prefix_byte, Hd, IH by assumption.
    simpl. f_equal. lia.
Qed.

Lemma LastIndex_from_absent (c : ascii) (s : string) (i : nat) :
  all_bytes (is_not c) s = true -> strings.LastIndex_from i s (String c "") = None.
Proof.
  revert i. induction s as [|d s IH]; intros i H; [reflexivity|].
  simpl in H. apply andb_true_iff in H as [Hd Hs].
  unfold is_not in Hd. apply negb_true_iff in Hd.
  cbn [strings.LastIndex_from]. rewrite IH, prefix_byte, Hd by assumption.
  reflexivity.
Qed.

Lemma CountByte_absent (c : ascii) (s : string) :
  all_bytes (is_not c) s = true -> strings.CountByte s c = 0.
Proof.
  induction s as [|d s IH]; intros H; [reflexivity|].
  simpl in H. apply andb_true_iff in H as [Hd Hs].
  unfold is_not in Hd. apply negb_true_iff in Hd.
  simpl. now rewrite Hd, IH.
Qed.

Lemma Cut_absent (c : ascii) (s : string) :
  all_bytes (is_not c) s = true -> strings.Cut s (String c "") = (s, "", false).
Proof.
  intros H. unfold strings.Cut, strings.Index. now rewrite Index_from_absent.
Qed.

Lemma take_app (s t : string) : strings.take (String.length s) (s ++ t) = s.
Proof.
  induction s as [|c s IH]; simpl; [now destruct t|]. now rewrite IH.
Qed.

Lemma drop_app (s t : string) : strings.drop (String.length s) (s ++ t) = t.
Proof. induction s as [|c s IH]; simpl; auto. Qed.

Lemma bucket_byte_facts (c : ascii) :
  bucket_byte c = true ->
  url.shouldEscape c url.encodeHost = false
  /\ (nat_of_ascii c <? 32)%nat || (nat_of_ascii c =? 127)%nat = false
  /\ is_not "%" c = true /\ is_not "+" c = true /\ is_not "#" c = true
  /\ is_not "?" c = true /\ is_not "/" c = true /\ is_not "@" c = true
  /\ is_not ":" c = true /\ is_not "[" c = true.
Proof.
  destruct c as [[] [] [] [] [] [] [] []]; vm_compute; intros H;
    first [discriminate H | repeat split].
Qed.

Lemma key_byte_facts (c : ascii) :
  key_byte c = true ->
  url.shouldEscape c url.encodePath = false
  /\ (nat_of_ascii c <? 32)%nat || (nat_of_ascii c =? 127)%nat = false
  /\ is_not "%" c = true /\ is_not "+" c = true /\ is_not "#" c = true
  /\ is_not "?" c = true /\ is_not "*" c = true.
Proof.
  destruct c as [[] [] [] [] [] [] [] []]; vm_compute; intros H;
    first [discriminate H | repeat split].
Qed.


Lemma key_absent (c : ascii) (s : string) :
  key_byte c = false -> all_bytes key_byte s = true -> all_bytes (is_not c) s = true.
Proof.
  intros Hc. apply all_bytes_impl. intros d Hd. unfold is_not.
  destruct (Ascii.eqb_spec d c) as [->|]; [congruence|reflexivity].
Qed.

Lemma escape_unchanged (mode : url.encoding) (s : string) :
  all_bytes (fun c => negb (url.shouldEscape c mode)) s = true ->
  url.escape s mode = s.
Proof.
  intros H. unfold url.escape.
  assert (E : url.escape_count s mode = (0, 0)).
  { induction s as [|c s IH]; [reflexivity|].
    simpl in H. apply andb_true_iff in H as [Hc Hs].
    apply negb_true_iff in Hc. simpl. now rewrite IH, Hc. }
  now rewrite E.
Qed.

Lemma unescape_unchanged (mode : url.encoding) (s : string) :
  all_bytes (is_not "%") s = true ->
  all_bytes (is_not "+") s = true ->
  all_bytes (fun c => negb (url.shouldEscape c url.encodeHost)) s = true
  \/ mode = url.encodePath ->
  url.unescape s mode = Ok s.
Proof.
  intros Hpct Hplus Hmode. unfold url.unescape.
  assert (E : url.unescape_check s mode = None).
  { induction s as [|c s IH]; [reflexivity|].
    simpl in Hpct, Hplus.
    apply andb_true_iff in Hpct as [Hc1 Hs1].
    apply andb_true_iff in Hplus as [Hc2 Hs2].
    unfold is_not in Hc1, Hc2. apply negb_true_iff in Hc1, Hc2.
    cbn [url.unescape_check]. rewrite Hc1, Hc2.
    destruct Hmode as [Hesc| ->].
    - simpl in Hesc. apply andb_true_iff in Hesc as [Hc3 Hs3].
      apply negb_true_iff in Hc3. rewrite Hc3, andb_false_r. auto.
    - cbn. auto. }
  rewrite E, (CountByte_absent "%" s Hpct), (CountByte_absent "+" s Hplus).
  reflexivity.
Qed.



Lemma setPath_canonical (key : string) :
  all_bytes key_byte key = true -> url.setPath key = Ok (key, "").
Proof.
  intros Hk. unfold url.setPath.
  rewrite unescape_unchanged; try (now apply key_absent); [|now right].
  cbn [result_bind]. rewrite escape_unchanged.
  - now rewrite String.eqb_refl.
  - revert Hk. apply all_bytes_impl. intros c Hc.
    destruct (key_byte_facts c Hc) as (-> & _). reflexivity.
Qed.


Lemma stringContainsCTLByte_free (s : string) :
  all_bytes (fun b => negb ((nat_of_ascii b <? 32)%nat || (nat_of_ascii b =? 127)%nat)) s = true ->
  url.stringContainsCTLByte s = false.
Proof.
  unfold url.stringContainsCTLByte. induction s as [|c s IH]; [reflexivity|].
  simpl. intros H. apply andb_true_iff in H as [Hc Hs].
  apply negb_true_iff in Hc. rewrite Hc. now apply IH.
Qed.







(** ** Construction, Protocol and URL *)





(** C8. [Protocol()] is the constant ["s3"], for every location and every
    list of options (of the package or not). *)
Theorem C8_Protocol_is_s3 :
  forall (u : url.URL) (opts : list Option), Protocol (New u opts) = "s3".
Proof. reflexivity. Qed.




(** * Further properties of the package *)

(** ** Options *)

Lemma option_absorbed (o1 o2 : Option) :
  same_field o1 o2 -> forall s, o2 (o1 s) = o2 s.
Proof. intros H s. destruct H; reflexivity. Qed.

Lemma other_field_commute (o1 o2 : Option) :
  other_field o1 o2 -> forall s, o2 (o1 s) = o1 (o2 s).
Proof.
  intros H. induction H; intros s; try reflexivity. symmetry. apply IHother_field.
Qed.

Lemma option_commutes_or_absorbs (o o1 : Option) :
  package_option o -> package_option o1 ->
  (forall s, o (o1 s) = o1 (o s)) \/ (forall s, o (o1 s) = o s).
Proof.
  intros Ho Ho1. destruct Ho, Ho1;
    first [left; intros s; reflexivity | right; intros s; reflexivity].
Qed.

Lemma same_field_package (o1 o2 : Option) :
  same_field o1 o2 -> package_option o1 /\ package_option o2.
Proof. intros H. destruct H; split; constructor. Qed.

Lemma options_past_earlier (o1 : Option) (b : list Option) :
  package_option o1 -> Forall package_option b ->
  forall s,
    fold_left (fun s opt => opt s) b (o1 s) = o1 (fold_left (fun s opt => opt s) b s)
    \/ fold_left (fun s opt => opt s) b (o1 s) = fold_left (fun s opt => opt s) b s.
Proof.
  intros Ho1 Hb. induction Hb as [|o b Ho _ IH]; intros s; [now left|].
  simpl. destruct (option_commutes_or_absorbs o o1 Ho Ho1) as [Hc|Ha].
  - rewrite Hc. apply IH.
  - rewrite Ha. now right.
Qed.

(** X1. Options are applied in order and a later option on a field overrides an
    earlier one on the same field: the earlier one can be dropped. *)
Theorem later_option_overrides :
  forall (u : url.URL) (a b c : list Option) (o1 o2 : Option),
    Forall package_option b -> same_field o1 o2 ->
    New u (a ++ [o1] ++ b ++ [o2] ++ c) = New u (a ++ b ++ [o2] ++ c).
Proof.
  intros u a b c o1 o2 Hb Hsf. unfold New.
  rewrite !fold_left_app. cbn [fold_left]. f_equal.
  destruct (same_field_package o1 o2 Hsf) as [Ho1 _].
  match goal with
  | |- o2 (fold_left _ b (o1 ?s)) = o2 ?y =>
      destruct (options_past_earlier o1 b Ho1 Hb s) as [E|E];
      [ transitivity (o2 (o1 y)); [f_equal; exact E | now apply option_absorbed]
      | f_equal; exact E ]
  end.
Qed.

Lemma later_option_overrides_witness :
  New (sim.location "s3://bucket/prefix")
      [WithEndpoint "http://a:1"; WithRegion "r"; WithPathStyle; WithEndpoint "http://b:2"]
  = New (sim.location "s3://bucket/prefix")
        [WithRegion "r"; WithPathStyle; WithEndpoint "http://b:2"]
  /\ endpoint (New (sim.location "s3://bucket/prefix")
                   [WithEndpoint "http://a:1"; WithRegion "r"; WithPathStyle;
                    WithEndpoint "http://b:2"]) = "http://b:2".
Proof.
  split; [|reflexivity].
  apply (later_option_overrides (sim.location "s3://bucket/prefix")
           [] [WithRegion "r"; WithPathStyle] []
           (WithEndpoint "http://a:1") (WithEndpoint "http://b:2")).
  - repeat constructor.
  - constructor.
Defined.

(** X2. Options on different fields can be given in either order. *)
Theorem options_on_different_fields_commute :
  forall (u : url.URL) (a c : list Option) (o1 o2 : Option),
    other_field o1 o2 ->
    New u (a ++ [o1; o2] ++ c) = New u (a ++ [o2; o1] ++ c).
Proof.
  intros u a c o1 o2 H. unfold New.
  rewrite !fold_left_app. cbn [fold_left]. f_equal.
  now apply other_field_commute.
Qed.

Lemma options_on_different_fields_witness :
  New (sim.location "s3://bucket/prefix") [WithRegion "r"; WithAccessKeyId "AKIA"; WithPathStyle]
  = New (sim.location "s3://bucket/prefix") [WithAccessKeyId "AKIA"; WithRegion "r"; WithPathStyle].
Proof.
  apply (options_on_different_fields_commute (sim.location "s3://bucket/prefix")
           [] [WithPathStyle] (WithRegion "r") (WithAccessKeyId "AKIA")).
  constructor.
Defined.

(** ** The calls of [getConfig] and of the operations *)

Lemma run_getConfig_exact {W : Type} (h : handler W) (endpoint : string) (w : W) :
  exists enabled answer w' resolver,
    run h (getConfig endpoint) w =
      (Returned answer, w',
       [Entry (log_IsLevelEnabled log.TraceLevel) enabled;
        Entry (config_LoadDefaultConfig
                 (config.WithEndpointResolverWithOptions resolver
                    :: (if enabled : bool
                        then [config.WithClientLogMode (2 ^ 60 + 2 ^ 59)%Z]
                        else [])))
              answer])
    /\ forall service region : string,
        resolver service region = Ok {| aws.URL := getEndpoint endpoint |}.
Proof.
  unfold getConfig, call. simpl.
  destruct (h bool (log_IsLevelEnabled log.TraceLevel) w) as [b w1].
  destruct b; simpl;
    match goal with
    | |- context [h _ (config_LoadDefaultConfig ?o) w1] =>
        destruct (h _ (config_LoadDefaultConfig o) w1) as [r w2]
    end;
    [exists true | exists false]; exists r, w2; eexists; split; reflexivity.
Qed.

(** X3. [getConfig] makes two calls: it asks the logger whether the trace level
    is enabled and then the SDK's loader for a configuration.  The loader
    gets an endpoint resolver that answers [getEndpoint endpoint] for every
    service and region, and the log mode [LogRequestWithBody|LogResponse]
    exactly when the trace level is enabled; the loader's answer is
    returned as it is. *)
Theorem getConfig_calls :
  forall (W : Type) (h : handler W) (endpoint : string) (w : W),
  exists enabled answer resolver,
    steps_of h (getConfig endpoint) w =
      [s_IsLevelEnabled log.TraceLevel enabled;
       s_LoadDefaultConfig
         (config.WithEndpointResolverWithOptions resolver
            :: (if enabled : bool
                then [config.WithClientLogMode (2 ^ 60 + 2 ^ 59)%Z]
                else []))
         answer]
    /\ outcome_of h (getConfig endpoint) w = Returned answer
    /\ forall service region : string,
        resolver service region = Ok {| aws.URL := getEndpoint endpoint |}.
Proof.
  intros W h endpoint w.
  destruct (run_getConfig_exact h endpoint w) as (b & r & w' & f & E & Hf).
  exists b, r, f. unfold steps_of, trace_of, outcome_of. rewrite E.
  repeat split; auto.
Qed.

(** Opens an operation: runs its [getConfig] and names the answers. *)
Ltac open_op h s w :=
  let b := fresh "enabled" in
  let r := fresh "r" in
  let w1 := fresh "w" in
  let f := fresh "resolver" in
  let E := fresh "Ecfg" in
  let Hf := fresh "Hresolver" in
  unfold steps_of, trace_of, outcome_of;
  destruct (run_getConfig_exact h (endpoint s) w) as (b & r & w1 & f & E & Hf);
  rewrite ?run_bind, ?E; cbn [fst snd].

(** X4. When the configuration does not load, Pull, Push, ReadDir and Remove
    stop there: no file is touched, no request is sent, and the loader's
    error comes back wrapped as [failed to load AWS config], with a zero
    count or an empty listing. *)
Theorem config_failure_stops_operation :
  forall (W : Type) (h : handler W) (w : W) (s : S3) (a b : string)
         (optFns : list config.LoadOption) (err : error),
    let wrapped := fmt_Errorf "failed to load AWS config: %v" [a_error err] in
    (nth_error (steps_of h (Pull s a b) w) 1 = Some (s_LoadDefaultConfig optFns (Err err)) ->
     length (steps_of h (Pull s a b) w) = 2
     /\ outcome_of h (Pull s a b) w = Returned (0%Z, Some wrapped))
    /\ (nth_error (steps_of h (Push s a b) w) 1 = Some (s_LoadDefaultConfig optFns (Err err)) ->
        length (steps_of h (Push s a b) w) = 2
        /\ outcome_of h (Push s a b) w = Returned (0%Z, Some wrapped))
    /\ (nth_error (steps_of h (ReadDir s a) w) 1 = Some (s_LoadDefaultConfig optFns (Err err)) ->
        length (steps_of h (ReadDir s a) w) = 2
        /\ outcome_of h (ReadDir s a) w = Returned ([], Some wrapped))
    /\ (nth_error (steps_of h (Remove s a) w) 1 = Some (s_LoadDefaultConfig optFns (Err err)) ->
        length (steps_of h (Remove s a) w) = 2
        /\ outcome_of h (Remove s a) w = Returned (Some wrapped)).
Proof.
  intros W h w s a b optFns err wrapped. unfold wrapped.
  split; [|split; [|split]].
  all: try unfold Pull; try unfold Push; try unfold ReadDir; try unfold Remove.
  all: open_op h s w.
  all: destruct r as [cfg|err']; cbn [run bind call fst snd]; drive h;
    try destruct (ReadDir_loop _ _); cbn;
    (let Hnth := fresh "Hnth" in
     intros Hnth; inversion Hnth; subst; split; reflexivity).
Qed.

Lemma config_failure_witness :
  outcome_of sim.env (Pull samples.client "a/b.txt" "/tmp/b.txt") locked_out
  = Returned (0%Z, Some (fmt_Errorf "failed to load AWS config: %v"
                           [a_error (errors_New "failed to retrieve credentials")]))
  /\ outcome_of sim.env (Push samples.client "new.tgz" "/tmp/dump.tgz") locked_out
     = Returned (0%Z, Some (fmt_Errorf "failed to load AWS config: %v"
                              [a_error (errors_New "failed to retrieve credentials")]))
  /\ outcome_of sim.env (ReadDir samples.client "prefix") locked_out
     = Returned ([], Some (fmt_Errorf "failed to load AWS config: %v"
                             [a_error (errors_New "failed to retrieve credentials")]))
  /\ outcome_of sim.env (Remove samples.client "prefix/c.txt") locked_out
     = Returned (Some (fmt_Errorf "failed to load AWS config: %v"
                         [a_error (errors_New "failed to retrieve credentials")])).
Proof.
  pose (optFns :=
          match steps_of sim.env (getConfig (endpoint samples.client)) locked_out with
          | [_; s_LoadDefaultConfig o _] => o
          | _ => []
          end).
  destruct (config_failure_stops_operation
              sim.World sim.env locked_out samples.client "a/b.txt" "/tmp/b.txt"
              optFns (errors_New "failed to retrieve credentials"))
    as (H1 & _).
  destruct (config_failure_stops_operation
              sim.World sim.env locked_out samples.client "new.tgz" "/tmp/dump.tgz"
              optFns (errors_New "failed to retrieve credentials"))
    as (_ & H2 & _).
  destruct (config_failure_stops_operation
              sim.World sim.env locked_out samples.client "prefix" ""
              optFns (errors_New "failed to retrieve credentials"))
    as (_ & _ & H3 & _).
  destruct (config_failure_stops_operation
              sim.World sim.env locked_out samples.client "prefix/c.txt" ""
              optFns (errors_New "failed to retrieve credentials"))
    as (_ & _ & _ & H4).
  split; [apply H1; vm_compute; reflexivity|].
  split; [apply H2; vm_compute; reflexivity|].
  split; [apply H3; vm_compute; reflexivity|].
  apply H4; vm_compute; reflexivity.
Defined.

(** ** Failures after the configuration loaded *)

(** X5. A local file that cannot be created (Pull) or opened (Push) stops the
    operation before any request is sent; the error comes back wrapped,
    with the file name, and the count is zero. *)
Theorem local_failure_sends_nothing :
  forall (W : Type) (h : handler W) (w : W) (s : S3) (key file name : string) (err : error),
    (In (s_Create name (Err err)) (steps_of h (Pull s key file) w) ->
     name = file
     /\ requests (trace_of h (Pull s key file) w) = []
     /\ outcome_of h (Pull s key file) w
        = Returned (0%Z, Some (fmt_Errorf "failed to create target restore file %q, %v"
                                 [a_string file; a_error err])))
    /\ (In (s_Open name (Err err)) (steps_of h (Push s key file) w) ->
        name = file
        /\ requests (trace_of h (Push s key file) w) = []
        /\ outcome_of h (Push s key file) w
           = Returned (0%Z, Some (fmt_Errorf "failed to read input file %q, %v"
                                    [a_string file; a_error err]))).
Proof.
  intros W h w s key file name err. split.
  all: try unfold Pull; try unfold Push.
  all: open_op h s w.
  all: destruct r as [cfg|err']; cbn [run bind call fst snd]; drive h; cbn;
    (let Hin := fresh "Hin" in
     intros Hin;
     repeat (destruct Hin as [Hin|Hin]; [try discriminate Hin|]);
     try contradiction;
     inversion Hin; subst; repeat split; reflexivity).
Qed.

Lemma local_failure_witness :
  outcome_of (refusing read_only_disk sim.env)
             (Pull samples.client "a/b.txt" "/tmp/b.txt") sim.world0
  = Returned (0%Z, Some (fmt_Errorf "failed to create target restore file %q, %v"
                           [a_string "/tmp/b.txt";
                            a_error (errors_New "read-only file system")]))
  /\ outcome_of sim.env (Push samples.client "new.tgz" "/tmp/missing.tgz") sim.world0
     = Returned (0%Z, Some (fmt_Errorf "failed to read input file %q, %v"
                              [a_string "/tmp/missing.tgz";
                               a_error (errors_New "no such file or directory")])).
Proof.
  split.
  - apply (local_failure_sends_nothing
             sim.World (refusing read_only_disk sim.env) sim.world0 samples.client
             "a/b.txt" "/tmp/b.txt" "/tmp/b.txt" (errors_New "read-only file system")).
    vm_compute. auto.
  - apply (local_failure_sends_nothing
             sim.World sim.env sim.world0 samples.client
             "new.tgz" "/tmp/missing.tgz" "/tmp/missing.tgz"
             (errors_New "no such file or directory")).
    vm_compute. auto.
Defined.

(** X6. A request the store answers with an error gives the operation's own
    wrapped error, a zero count or an empty listing.  For Pull the target
    file has been created by then, and it is closed. *)
Theorem remote_failure_is_reported :
  forall (W : Type) (h : handler W) (w : W) (s : S3) (a b : string) (err : error),
    (forall cfg f input,
        In (s_Download cfg f input (Err err)) (steps_of h (Pull s a b) w) ->
        In (s_Create b (Ok f)) (steps_of h (Pull s a b) w)
        /\ closed (steps_of h (Pull s a b) w) = [f]
        /\ outcome_of h (Pull s a b) w
           = Returned (0%Z, Some (fmt_Errorf "failed to download file, %v" [a_error err])))
    /\ (forall cfg input,
           In (s_Upload cfg input (Err err)) (steps_of h (Push s a b) w) ->
           closed (steps_of h (Push s a b) w) = [PutObjectInput.Body input]
           /\ outcome_of h (Push s a b) w
              = Returned (0%Z, Some (fmt_Errorf "failed to upload file, %v" [a_error err])))
    /\ (forall cfg params,
           In (s_ListObjectsV2 cfg params (Err err)) (steps_of h (ReadDir s a) w) ->
           outcome_of h (ReadDir s a) w
           = Returned ([], Some (fmt_Errorf "failed to list objects, %v" [a_error err])))
    /\ (forall cfg params,
           In (s_DeleteObject cfg params (Err err)) (steps_of h (Remove s a) w) ->
           outcome_of h (Remove s a) w
           = Returned (Some (fmt_Errorf "failed to delete object, %v" [a_error err]))).
Proof.
  intros W h w s a b err.
  split; [|split; [|split]].
  all: try unfold Pull; try unfold Push; try unfold ReadDir; try unfold Remove.
  all: open_op h s w.
  all: destruct r as [cfg0|err']; cbn [run bind call fst snd]; drive h;
    try destruct (ReadDir_loop _ _); cbn;
    (let Hin := fresh "Hin" in
     intros; 
     match goal with Hx : _ \/ _ |- _ => rename Hx into Hin end;
     repeat (destruct Hin as [Hin|Hin]; [try discriminate Hin|]);
     try contradiction;
     inversion Hin; subst; repeat split; auto).
Qed.

Lemma remote_failure_witness :
  outcome_of sim.env (Pull samples.client "no/such/key" "/tmp/b.txt") sim.world0
  = Returned (0%Z, Some (fmt_Errorf "failed to download file, %v"
                           [a_error (errors_New "NoSuchKey")]))
  /\ In (s_Create "/tmp/b.txt" (Ok {| os.Name := "/tmp/b.txt" |}))
        (steps_of sim.env (Pull samples.client "no/such/key" "/tmp/b.txt") sim.world0)
  /\ outcome_of (refusing access_denied sim.env)
                (Push samples.client "new.tgz" "/tmp/dump.tgz") sim.world0
     = Returned (0%Z, Some (fmt_Errorf "failed to upload file, %v"
                              [a_error (errors_New "AccessDenied")]))
  /\ outcome_of (refusing access_denied sim.env) (ReadDir samples.client "prefix") sim.world0
     = Returned ([], Some (fmt_Errorf "failed to list objects, %v"
                             [a_error (errors_New "AccessDenied")]))
  /\ outcome_of (refusing access_denied sim.env) (Remove samples.client "k") sim.world0
     = Returned (Some (fmt_Errorf "failed to delete object, %v"
                         [a_error (errors_New "AccessDenied")])).
Proof.
  destruct (remote_failure_is_reported
              sim.World sim.env sim.world0 samples.client "no/such/key" "/tmp/b.txt"
              (errors_New "NoSuchKey")) as (H1 & _).
  destruct (remote_failure_is_reported
              sim.World (refusing access_denied sim.env) sim.world0 samples.client
              "new.tgz" "/tmp/dump.tgz" (errors_New "AccessDenied")) as (_ & H2 & _).
  destruct (remote_failure_is_reported
              sim.World (refusing access_denied sim.env) sim.world0 samples.client
              "prefix" "" (errors_New "AccessDenied")) as (_ & _ & H3 & _).
  destruct (remote_failure_is_reported
              sim.World (refusing access_denied sim.env) sim.world0 samples.client
              "k" "" (errors_New "AccessDenied")) as (_ & _ & _ & H4).
  assert (P : exists cfg input,
             In (s_Download cfg {| os.Name := "/tmp/b.txt" |} input (Err (errors_New "NoSuchKey")))
                (steps_of sim.env (Pull samples.client "no/such/key" "/tmp/b.txt") sim.world0)).
  { vm_compute. eexists _, _. right. right. right. left. reflexivity. }
  destruct P as (cfg & input & P).
  destruct (H1 _ _ _ P) as (Hc & _ & Ho).
  split; [exact Ho|]. split; [exact Hc|].
  split.
  - assert (Q : exists cfg input,
               In (s_Upload cfg input (Err (errors_New "AccessDenied")))
                  (steps_of (refusing access_denied sim.env)
                            (Push samples.client "new.tgz" "/tmp/dump.tgz") sim.world0)).
    { vm_compute. eexists _, _. right. right. right. left. reflexivity. }
    destruct Q as (cfg' & input' & Q). exact (proj2 (H2 _ _ Q)).
  - split.
    + assert (Q : exists cfg params,
                 In (s_ListObjectsV2 cfg params (Err (errors_New "AccessDenied")))
                    (steps_of (refusing access_denied sim.env)
                              (ReadDir samples.client "prefix") sim.world0)).
      { vm_compute. eexists _, _. right. right. left. reflexivity. }
      destruct Q as (cfg' & params & Q). exact (H3 _ _ Q).
    + assert (Q : exists cfg params,
                 In (s_DeleteObject cfg params (Err (errors_New "AccessDenied")))
                    (steps_of (refusing access_denied sim.env)
                              (Remove samples.client "k") sim.world0)).
      { vm_compute. eexists _, _. right. right. left. reflexivity. }
      destruct Q as (cfg' & params & Q). exact (H4 _ _ Q).
Defined.

(** ** Local files *)

(** X7. Pull and Push close the file they got open exactly once, as their last
    call, after the transfer, on every path; when the file could not be
    opened nothing is closed.  At most one file is opened per call. *)
Theorem opened_file_is_closed_once :
  forall (W : Type) (h : handler W) (w : W) (s : S3) (key file : string),
    (closed (steps_of h (Pull s key file) w) = opened (steps_of h (Pull s key file) w)
     /\ length (opened (steps_of h (Pull s key file) w)) <= 1
     /\ forall f, In f (opened (steps_of h (Pull s key file) w)) ->
                  exists answer,
                    last (steps_of h (Pull s key file) w) (s_Close f None) = s_Close f answer)
    /\ (closed (steps_of h (Push s key file) w) = opened (steps_of h (Push s key file) w)
        /\ length (opened (steps_of h (Push s key file) w)) <= 1
        /\ forall f, In f (opened (steps_of h (Push s key file) w)) ->
                     exists answer,
                       last (steps_of h (Push s key file) w) (s_Close f None) = s_Close f answer).
Proof.
  intros W h w s key file. split.
  all: try unfold Pull; try unfold Push.
  all: open_op h s w.
  all: destruct r as [cfg|err']; cbn [run bind call fst snd]; drive h; cbn;
    (split; [reflexivity|split; [lia|]]);
    (let Hin := fresh "Hin" in
     intros f Hin;
     repeat (destruct Hin as [Hin|Hin]; [subst; eexists; reflexivity|]);
     contradiction).
Qed.

Lemma opened_file_witness :
  exists answer,
    last (steps_of sim.env (Pull samples.client "a/b.txt" "/tmp/b.txt") sim.world0)
         (s_Close {| os.Name := "/tmp/b.txt" |} None)
    = s_Close {| os.Name := "/tmp/b.txt" |} answer.
Proof.
  destruct (opened_file_is_closed_once
              sim.World sim.env sim.world0 samples.client "a/b.txt" "/tmp/b.txt")
    as ((_ & _ & H) & _).
  apply H. vm_compute. left. reflexivity.
Defined.



(** ** Success and panics *)

(** X9. An operation reports success exactly when the store acknowledged its
    request: Pull then returns the byte count the downloader reported, Push
    returns 0.  Whatever closing the file answers does not change the
    result.  With an error, the count of Pull is 0. *)
Theorem success_means_acknowledged :
  forall (W : Type) (h : handler W) (w : W) (s : S3) (a b : string) (n : Z),
    (outcome_of h (Pull s a b) w = Returned (n, None)
     <-> exists cfg f input, In (s_Download cfg f input (Ok n)) (steps_of h (Pull s a b) w))
    /\ (forall err, outcome_of h (Pull s a b) w = Returned (n, Some err) -> n = 0%Z)
    /\ (outcome_of h (Push s a b) w = Returned (0%Z, None)
        <-> exists cfg input, In (s_Upload cfg input (Ok tt)) (steps_of h (Push s a b) w))
    /\ (outcome_of h (Remove s a) w = Returned None
        <-> exists cfg params, In (s_DeleteObject cfg params (Ok tt)) (steps_of h (Remove s a) w)).
Proof.
  intros W h w s a b n.
  split; [|split; [|split]].
  all: try unfold Pull; try unfold Push; try unfold Remove.
  all: open_op h s w.
  all: destruct r as [cfg0|err']; cbn [run bind call fst snd]; drive h; cbn.
  all: try (intros err Herr; inversion Herr; reflexivity).
  all: split;
    [ intros Hout; inversion Hout; subst;
      repeat match goal with u : unit |- _ => destruct u end;
      repeat eexists; auto 6
    | intros Hex;
      repeat match goal with
             | Hx : exists _, _ |- _ => destruct Hx as [? Hx]
             end;
      repeat match goal with
             | Hx : _ \/ _ |- _ => destruct Hx as [Hx|Hx]; [try discriminate Hx|]
             | Hx : False |- _ => contradiction
             end;
      try match goal with
          | Hx : _ = _ |- _ => inversion Hx; subst; reflexivity
          end ].
Qed.

Lemma success_means_acknowledged_witness :
  outcome_of sim.env (Pull samples.client "a/b.txt" "/tmp/b.txt") sim.world0
  = Returned (3%Z, None)
  /\ outcome_of sim.env (Push samples.client "new.tgz" "/tmp/dump.tgz") sim.world0
     = Returned (0%Z, None)
  /\ outcome_of sim.env (Remove samples.client "prefix/c.txt") sim.world0 = Returned None.
Proof.
  destruct (success_means_acknowledged
              sim.World sim.env sim.world0 samples.client "a/b.txt" "/tmp/b.txt" 3%Z)
    as ([_ H1] & _).
  destruct (success_means_acknowledged
              sim.World sim.env sim.world0 samples.client "new.tgz" "/tmp/dump.tgz" 0%Z)
    as (_ & _ & [_ H2] & _).
  destruct (success_means_acknowledged
              sim.World sim.env sim.world0 samples.client "prefix/c.txt" "" 0%Z)
    as (_ & _ & _ & [_ H3]).
  split; [apply H1; vm_compute; eexists _, _, _; auto 6|].
  split; [apply H2; vm_compute; eexists _, _; auto 6|].
  apply H3; vm_compute; eexists _, _; auto 6.
Defined.

Lemma ReadDir_loop_None (items : list types.Object) (acc : list s3FileInfo) :
  ReadDir_loop items acc = None <-> Exists incomplete items.
Proof.
  revert acc. induction items as [|item items IH]; intros acc; simpl.
  - split; [discriminate|intros H; inversion H].
  - destruct (types.Key item) as [k|] eqn:Hk.
    + destruct (types.LastModified item) as [t|] eqn:Ht.
      * rewrite IH. split; [now constructor 2|].
        intros H. inversion H as [? ? [Hi|Hi]|]; subst; [congruence|congruence|assumption].
      * split; [|reflexivity]. intros _. constructor 1. now right.
    + split; [|reflexivity]. intros _. constructor 1. now left.
Qed.

(** X10. Pull, Push and Remove never panic.  ReadDir panics exactly when the
    store's listing has an object without key or without modification time
    (the nil pointer the loop dereferences). *)
Theorem panics_only_on_incomplete_listing :
  forall (W : Type) (h : handler W) (w : W) (s : S3) (a b : string),
    (exists r, outcome_of h (Pull s a b) w = Returned r)
    /\ (exists r, outcome_of h (Push s a b) w = Returned r)
    /\ (exists r, outcome_of h (Remove s a) w = Returned r)
    /\ ((exists reason, outcome_of h (ReadDir s a) w = Panicked reason)
        <-> exists cfg params out,
             In (s_ListObjectsV2 cfg params (Ok out)) (steps_of h (ReadDir s a) w)
             /\ Exists incomplete (ListObjectsV2Output.Contents out)).
Proof.
  intros W h w s a b.
  split; [|split; [|split]].
  all: try unfold Pull; try unfold Push; try unfold ReadDir; try unfold Remove.
  all: open_op h s w.
  all: destruct r as [cfg0|err']; cbn [run bind call fst snd]; drive h; cbn.
  all: try (eexists; reflexivity).
  - destruct (ReadDir_loop (ListObjectsV2Output.Contents a0) []) as [files|] eqn:Hloop; cbn.
    + split; [intros [reason Hp]; discriminate Hp|].
      intros (cfg & params & out & Hin & Hex).
      apply (ReadDir_loop_None _ []) in Hex.
      repeat (destruct Hin as [Hin|Hin]; [try discriminate Hin|]); try contradiction.
      inversion Hin; subst. congruence.
    + split; [|intros _; eexists; reflexivity].
      intros _. eexists _, _, a0. split; [right; right; left; reflexivity|].
      now apply (ReadDir_loop_None _ []).
  - split; [intros [reason Hp]; discriminate Hp|].
    intros (cfg & params & out & Hin & _).
    repeat (destruct Hin as [Hin|Hin]; [try discriminate Hin|]); contradiction.
  - split; [intros [reason Hp]; discriminate Hp|].
    intros (cfg & params & out & Hin & _).
    repeat (destruct Hin as [Hin|Hin]; [try discriminate Hin|]); contradiction.
Qed.

Lemma panics_witness :
  exists reason,
    outcome_of (refusing keyless_listing sim.env) (ReadDir samples.client "prefix") sim.world0
    = Panicked reason.
Proof.
  destruct (panics_only_on_incomplete_listing
              sim.World (refusing keyless_listing sim.env) sim.world0 samples.client
              "prefix" "") as (_ & _ & _ & [_ H]).
  apply H. vm_compute. eexists _, _, _. split.
  - right. right. left. reflexivity.
  - constructor 1. now left.
Defined.

(** ** The shape of object keys *)

Lemma hd_app_nonempty {A : Type} (d : A) (l x : list A) :
  l <> [] -> hd d (l ++ x) = hd d l.
Proof. destruct l; [contradiction|reflexivity]. Qed.

(** In a rooted path the buffer of [Clean] always starts with the root. *)
Lemma clean_loop_rooted (fuel : nat) (rest out : list ascii) (dotdot : nat) :
  1 <= dotdot <= length out -> hd "."%char out = "/"%char ->
  hd "."%char (path.clean_loop fuel true rest out dotdot) = "/"%char.
Proof.
  revert rest out dotdot.
  induction fuel as [|fuel IH]; intros rest out dotdot Hdd Hhd; [exact Hhd|].
  destruct rest as [|c rest1]; [exact Hhd|].
  assert (Hne : out <> []) by (destruct out; [simpl in Hdd; lia|discriminate]).
  cbn [path.clean_loop].
  destruct (path.is_slash c) eqn:Hc; [now apply IH|].
  destruct (path.is_dot c && path.at_end_or_slash rest1); [now apply IH|].
  destruct (path.is_dot c && path.is_dot (hd "/"%char rest1)
            && path.at_end_or_slash (tl rest1)).
  - destruct (Nat.ltb_spec dotdot (length out)) as [Hlt|Hge]; [|now apply IH].
    unfold path.backtrack.
    destruct (backtrack_w_spec out dotdot (length out - 1)) as [[Hw1 Hw2] _]; [lia|].
    set (w := path.backtrack_w out dotdot (length out - 1)) in *.
    apply IH.
    + rewrite length_firstn. lia.
    + destruct w as [|w]; [lia|]. destruct out; [contradiction|exact Hhd].
  - match goal with
    | |- context [path.copy_element (c :: rest1) ?o] => set (o1 := o)
    end.
    assert (Ho : o1 <> [] /\ hd "."%char o1 = "/"%char /\ length out <= length o1).
    { unfold o1. destruct (_ || _).
      - rewrite hd_app_nonempty, length_app by assumption.
        repeat split; [destruct out; [contradiction|discriminate]|assumption|lia].
      - repeat split; auto. }
    clearbody o1. destruct Ho as (Ho1 & Ho2 & Ho3).
    destruct (copy_element_spec (c :: rest1) o1) as (elem & H1 & _).
    destruct (path.copy_element (c :: rest1) o1) as [rest' out2].
    simpl in H1. subst out2.
    apply IH.
    + rewrite length_app. lia.
    + now rewrite hd_app_nonempty.
Qed.

Lemma Clean_rooted (p : string) :
  exists k, path.Clean (String "/" p) = String "/" k.
Proof.
  unfold path.Clean.
  change (String.eqb (String "/" p) "") with false.
  cbn [bytes list_ascii_of_string hd tl path.is_slash Ascii.eqb Bool.eqb].
  cbn [path.is_slash]. change (Ascii.eqb "/" "/") with true. cbv iota.
  pose proof (clean_loop_rooted (length ("/"%char :: list_ascii_of_string p))
                (list_ascii_of_string p) ["/"%char] 1) as H.
  destruct (path.clean_loop _ true _ _ 1) as [|c out].
  - discriminate H; simpl; auto.
  - assert (Hc : c = "/"%char) by (apply H; simpl; auto). subst c.
    exists (of_bytes out). reflexivity.
Qed.

Lemma Join_rooted (p arg : string) :
  exists k, path.Join [String "/" p; arg] = String "/" k.
Proof.
  unfold path.Join. cbn [fold_left String.length Nat.add Nat.eqb Nat.ltb Nat.leb
                         String.eqb orb negb append].
  change (Ascii.eqb "/" "/") with true. cbv iota.
  apply Clean_rooted.
Qed.

(** What [Clean] returns: [.], or a buffer that satisfies the invariant of
    the loop. *)
Lemma Clean_result (p : string) :
  path.Clean p = "."
  \/ exists rooted out dotdot,
      path.Clean p = of_bytes out /\ clean_inv rooted out dotdot.
Proof.
  unfold path.Clean.
  destruct (String.eqb p ""); [now left|].
  set (rooted := path.is_slash (hd "."%char (bytes p))).
  match goal with
  | |- context [(length ?o =? 0)%nat] => set (out := o)
  end.
  assert (Hinv : exists dotdot', clean_inv rooted out dotdot').
  { unfold out. pose proof (clean_inv_init rooted) as H0.
    destruct rooted; now apply clean_loop_inv. }
  destruct (length out =? 0)%nat; [now left|].
  right. destruct Hinv as [dd Hinv]. now exists rooted, out, dd.
Qed.

(** [path.Join] returns a trailing slash only as the root. *)
Lemma Join_no_trailing_slash (elem : list string) :
  ends_slash (bytes (path.Join elem)) = true -> path.Join elem = "/".
Proof.
  unfold path.Join. destruct (_ =? 0)%nat; [discriminate|].
  match goal with |- context [path.Clean ?b] => destruct (Clean_result b) as [E|E] end.
  - rewrite E. discriminate.
  - destruct E as (rooted & out & dd & -> & Hinv).
    unfold bytes, of_bytes. rewrite list_ascii_of_string_of_list_ascii.
    intros H. now destruct (inv_end _ _ _ Hinv H) as [-> _].
Qed.

(** X11. The key of the object Pull reads and Push writes never ends with a
    slash, unless it is the root [/]; when the location path starts with a
    slash, so does the key. *)
Theorem object_key_shape :
  forall (W : Type) (h : handler W) (w : W) (s : S3) (arg file : string),
    (forall input,
        In (GetObject input) (requests (trace_of h (Pull s arg file) w)) ->
        exists k,
          GetObjectInput.Key input = Some k
          /\ (ends_slash (bytes k) = true -> k = "/")
          /\ (forall p, url.Path (url s) = String "/" p -> exists k', k = String "/" k'))
    /\ (forall input,
           In (PutObject input) (requests (trace_of h (Push s arg file) w)) ->
           exists k,
             PutObjectInput.Key input = Some k
             /\ (ends_slash (bytes k) = true -> k = "/")
             /\ (forall p, url.Path (url s) = String "/" p -> exists k', k = String "/" k')).
Proof.
  intros W h w s arg file. split; intros input Hin.
  - destruct (Pull_requests h w s arg file) as [[E|E] _];
      cbv zeta in E; rewrite E in Hin; [contradiction|].
    destruct Hin as [Hin|[]]. inversion Hin; subst. cbn.
    eexists. split; [reflexivity|]. split; [apply Join_no_trailing_slash|].
    intros p ->. apply Join_rooted.
  - destruct (Push_requests h w s arg file) as [[E|[f E]] _];
      cbv zeta in E; rewrite E in Hin; [contradiction|].
    destruct Hin as [Hin|[]]. inversion Hin; subst. cbn.
    eexists. split; [reflexivity|]. split; [apply Join_no_trailing_slash|].
    intros p ->. apply Join_rooted.
Qed.

Lemma object_key_shape_witness :
  exists k,
    Some (path.Join [url.Path (url samples.client); "dir/"]) = Some k
    /\ k = "/prefix/dir".
Proof.
  destruct (object_key_shape sim.World sim.env sim.world0 samples.client "dir/" "/tmp/dump.tgz")
    as [_ H].
  destruct (H {| PutObjectInput.Bucket := Some "bucket";
                 PutObjectInput.Key := Some (path.Join [url.Path (url samples.client); "dir/"]);
                 PutObjectInput.Body := {| os.Name := "/tmp/dump.tgz" |} |})
    as (k & Hk & _ & Hroot).
  - vm_compute. left. reflexivity.
  - exists k. split; [exact Hk|].
    cbn in Hk. inversion Hk. vm_compute. reflexivity.
Defined.

(** X12. With a location path that starts with a slash, Remove with a relative
    key does not address the object Push wrote with that same key: same
    bucket, another key. *)
Theorem Remove_misses_what_Push_wrote :
  forall (W W' : Type) (h : handler W) (h' : handler W') (w : W) (w' : W')
         (s : S3) (target source p : string)
         (put : PutObjectInput.t) (del : DeleteObjectInput.t),
    url.Path (url s) = String "/" p ->
    strings.HasPrefix target "/" = false ->
    In (PutObject put) (requests (trace_of h (Push s target source) w)) ->
    In (DeleteObject del) (requests (trace_of h' (Remove s target) w')) ->
    PutObjectInput.Bucket put = DeleteObjectInput.Bucket del
    /\ PutObjectInput.Key put <> DeleteObjectInput.Key del.
Proof.
  intros W W' h h' w w' s target source p put del Hp Ht Hput Hdel.
  destruct (Push_requests h w s target source) as [[E|[f E]] _];
    cbv zeta in E; rewrite E in Hput; [contradiction|].
  rewrite Remove_requests in Hdel.
  destruct (config_loads h' (endpoint s) w'); [|contradiction].
  destruct Hput as [Hput|[]]. destruct Hdel as [Hdel|[]].
  inversion Hput; inversion Hdel; subst. cbn. split; [reflexivity|].
  rewrite Hp. destruct (Join_rooted p target) as [k ->].
  intros H. inversion H; subst.
  unfold strings.HasPrefix in Ht. rewrite prefix_byte in Ht. discriminate Ht.
Qed.

Lemma Remove_misses_witness :
  requests (trace_of sim.env (Push samples.client "new.tgz" "/tmp/dump.tgz") sim.world0)
  = [PutObject {| PutObjectInput.Bucket := Some "bucket";
                  PutObjectInput.Key := Some "/prefix/new.tgz";
                  PutObjectInput.Body := {| os.Name := "/tmp/dump.tgz" |} |}]
  /\ requests (trace_of sim.env (Remove samples.client "new.tgz") sim.world0)
     = [DeleteObject {| DeleteObjectInput.Bucket := Some "bucket";
                        DeleteObjectInput.Key := Some "new.tgz" |}]
  /\ Some "/prefix/new.tgz" <> Some "new.tgz".
Proof.
  split; [vm_compute; reflexivity|]. split; [vm_compute; reflexivity|].
  apply (Remove_misses_what_Push_wrote
           sim.World sim.World sim.env sim.env sim.world0 sim.world0 samples.client
           "new.tgz" "/tmp/dump.tgz" "prefix"
           {| PutObjectInput.Bucket := Some "bucket";
              PutObjectInput.Key := Some "/prefix/new.tgz";
              PutObjectInput.Body := {| os.Name := "/tmp/dump.tgz" |} |}
           {| DeleteObjectInput.Bucket := Some "bucket";
              DeleteObjectInput.Key := Some "new.tgz" |}).
  - vm_compute. reflexivity.
  - vm_compute. reflexivity.
  - vm_compute. left. reflexivity.
  - vm_compute. left. reflexivity.
Defined.

(** ** Keys that leave the prefix *)

Lemma bytes_app (s t : string) : bytes (s ++ t)%string = bytes s ++ bytes t.
Proof. induction s as [|c s IH]; simpl; [reflexivity|]. now rewrite <- IH. Qed.

Lemma copy_element_exact (e r out : list ascii) :
  slash_free e = true -> path.at_end_or_slash r = true ->
  path.copy_element (e ++ r) out = (r, out ++ e).
Proof.
  revert out. induction e as [|c e IH]; intros out He Hr.
  - rewrite app_nil_r. destruct r as [|d r]; [reflexivity|].
    simpl in Hr. simpl. now rewrite Hr.
  - simpl in He. apply andb_true_iff in He as [Hc He].
    apply negb_true_iff in Hc. simpl. rewrite Hc, IH by assumption.
    now rewrite <- app_assoc.
Qed.

(** One turn of the loop on a real path element. *)
Lemma clean_loop_element (fuel : nat) (rooted : bool) (c : ascii) (e r out : list ascii)
      (dotdot : nat) :
  slash_free (c :: e) = true -> path.is_dot c = false ->
  path.at_end_or_slash r = true -> length ((c :: e) ++ r) <= fuel ->
  path.clean_loop fuel rooted ((c :: e) ++ r) out dotdot
  = path.clean_loop (length r) rooted r
      ((if (rooted && negb (length out =? 1)%nat) || (negb rooted && negb (length out =? 0)%nat)
        then out ++ ["/"%char] else out) ++ c :: e)
      dotdot.
Proof.
  intros He Hc Hr Hfuel.
  destruct fuel as [|fuel]; [simpl in Hfuel; lia|].
  pose proof He as He'. simpl in He'. apply andb_true_iff in He' as [Hs _].
  apply negb_true_iff in Hs.
  change ((c :: e) ++ r) with (c :: (e ++ r)) at 1.
  cbn [path.clean_loop]. rewrite Hs, Hc. cbn [andb].
  change (c :: e ++ r) with ((c :: e) ++ r).
  rewrite copy_element_exact by assumption.
  apply clean_loop_fuel; [|lia].
  simpl in Hfuel. rewrite length_app in Hfuel. lia.
Qed.

(** The last turn of the loop, on a real path element. *)
Lemma clean_loop_last_element (fuel : nat) (rooted : bool) (c : ascii) (e out : list ascii)
      (dotdot : nat) :
  slash_free (c :: e) = true -> path.is_dot c = false -> length (c :: e) <= fuel ->
  path.clean_loop fuel rooted (c :: e) out dotdot
  = (if (rooted && negb (length out =? 1)%nat) || (negb rooted && negb (length out =? 0)%nat)
     then out ++ ["/"%char] else out) ++ c :: e.
Proof.
  intros He Hc Hfuel.
  rewrite <- (app_nil_r (c :: e)) at 1.
  rewrite clean_loop_element; try assumption; try reflexivity.
  rewrite app_nil_r. exact Hfuel.
Qed.

(** One turn of the loop on a slash. *)
Lemma clean_loop_slash (fuel : nat) (rooted : bool) (r out : list ascii) (dotdot : nat) :
  length r < fuel ->
  path.clean_loop fuel rooted ("/"%char :: r) out dotdot
  = path.clean_loop (length r) rooted r out dotdot.
Proof.
  intros Hfuel. destruct fuel as [|fuel]; [lia|].
  cbn [path.clean_loop]. change (path.is_slash "/") with true. cbv iota.
  apply clean_loop_fuel; lia.
Qed.

(** One turn of the loop on a [..] element that can backtrack. *)
Lemma clean_loop_dotdot (fuel : nat) (rooted : bool) (r out : list ascii) (dotdot : nat) :
  path.at_end_or_slash r = true -> dotdot < length out -> S (length r) < fuel ->
  path.clean_loop fuel rooted ("."%char :: "."%char :: r) out dotdot
  = path.clean_loop (length r) rooted r (path.backtrack out dotdot) dotdot.
Proof.
  intros Hr Hlt Hfuel. destruct fuel as [|fuel]; [lia|].
  cbn [path.clean_loop hd tl path.at_end_or_slash].
  change (path.is_slash ".") with false. change (path.is_dot ".") with true.
  cbn [andb]. rewrite Hr.
  apply Nat.ltb_lt in Hlt. rewrite Hlt.
  apply clean_loop_fuel; lia.
Qed.

(** Backtracking over one element after the root stops at the root. *)
Lemma backtrack_to_root (e : list ascii) :
  slash_free e = true -> e <> [] -> path.backtrack ("/"%char :: e) 1 = ["/"%char].
Proof.
  intros He Hne. unfold path.backtrack.
  assert (H : forall w, w <= length e -> 1 <= w ->
                        path.backtrack_w ("/"%char :: e) 1 w = 1).
  { induction w as [|w IH]; intros Hw H1; [lia|].
    cbn [path.backtrack_w].
    destruct (Nat.ltb_spec 1 (S w)) as [Hlt|Hge]; [|simpl; lia].
    assert (Hn : path.is_slash (nth (S w) ("/"%char :: e) "/"%char) = false).
    { simpl. unfold slash_free in He. rewrite forallb_forall in He.
      apply negb_true_iff, He, nth_In. lia. }
    rewrite Hn. simpl. apply IH; lia. }
  simpl length. replace (S (length e) - 1) with (length e) by lia.
  rewrite H; [reflexivity|lia|destruct e; [contradiction|simpl; lia]].
Qed.

Lemma plain_segment_bytes (x : string) :
  plain_segment x ->
  exists c e, bytes x = c :: e /\ slash_free (c :: e) = true /\ path.is_dot c = false.
Proof.
  intros (Hne & Hs & Hd). destruct x as [|c x]; [contradiction|].
  exists c, (bytes x). split; [reflexivity|]. split.
  - change (c :: bytes x) with (bytes (String c x)).
    unfold slash_free. now rewrite all_bytes_forallb.
  - unfold strings.HasPrefix in Hd. now rewrite prefix_byte in Hd.
Qed.

(** [path.Join] resolves [..]: under the prefix [/d], the relative key
    [../x] is the key [/x]. *)
Lemma Join_dotdot (d x : string) :
  plain_segment d -> plain_segment x ->
  path.Join [String "/" d; ("../" ++ x)%string] = String "/" x.
Proof.
  intros Hd Hx.
  destruct (plain_segment_bytes d Hd) as (c & e & Ed & Hde & Hdc).
  destruct (plain_segment_bytes x Hx) as (c' & e' & Ex & Hxe & Hxc).
  unfold path.Join. cbn [fold_left String.length Nat.add Nat.eqb Nat.ltb Nat.leb
                         String.eqb orb negb append].
  change (Ascii.eqb "/" "/") with true. cbv iota.
  unfold path.Clean.
  change (String.eqb (String "/" _) "") with false. cbv iota.
  cbn [bytes list_ascii_of_string hd tl].
  change (path.is_slash "/") with true. cbv iota.
  fold (bytes ((d ++ "/") ++ "../" ++ x)%string).
  rewrite !bytes_app. cbn [bytes list_ascii_of_string app].
  fold (bytes x). fold (bytes d). rewrite Ed, Ex.
  set (tail := "/"%char :: "."%char :: "."%char :: "/"%char :: c' :: e').
  replace (((c :: e) ++ ["/"%char]) ++ "."%char :: "."%char :: "/"%char :: c' :: e')
    with ((c :: e) ++ tail) by (unfold tail; now rewrite <- app_assoc).
  rewrite clean_loop_element; try assumption; try reflexivity; [|simpl; lia].
  cbn [length Nat.eqb andb orb negb].
  unfold tail. rewrite clean_loop_slash by (simpl; lia).
  rewrite clean_loop_dotdot; try reflexivity; [|simpl; lia|simpl; lia].
  change (["/"%char] ++ c :: e) with ("/"%char :: c :: e).
  rewrite backtrack_to_root by (assumption || discriminate).
  rewrite clean_loop_slash by (simpl; lia).
  rewrite clean_loop_last_element; try assumption; [|simpl; lia].
  cbn [length Nat.eqb andb orb negb app].
  rewrite <- Ex. unfold of_bytes, bytes. cbn [string_of_list_ascii].
  now rewrite string_of_list_ascii_of_string.
Qed.

(** X13. A relative key with [..] leaves the configured prefix: with the
    location path [/d], Pull with source [../x] asks for the key [/x] and
    Push with target [../x] writes it. *)
Theorem dotdot_key_leaves_prefix :
  forall (W : Type) (h : handler W) (w : W) (s : S3) (d x file : string),
    url.Path (url s) = String "/" d -> plain_segment d -> plain_segment x ->
    (forall input,
        In (GetObject input) (requests (trace_of h (Pull s ("../" ++ x) file) w)) ->
        GetObjectInput.Key input = Some (String "/" x))
    /\ (forall input,
           In (PutObject input) (requests (trace_of h (Push s ("../" ++ x) file) w)) ->
           PutObjectInput.Key input = Some (String "/" x)).
Proof.
  intros W h w s d x file Hp Hd Hx. split; intros input Hin.
  - destruct (Pull_requests h w s ("../" ++ x)%string file) as [[E|E] _];
      cbv zeta in E; rewrite E in Hin; [contradiction|].
    destruct Hin as [Hin|[]]. inversion Hin; subst. cbn [GetObjectInput.Key].
    rewrite Hp. exact (f_equal Some (Join_dotdot d x Hd Hx)).
  - destruct (Push_requests h w s ("../" ++ x)%string file) as [[E|[f E]] _];
      cbv zeta in E; rewrite E in Hin; [contradiction|].
    destruct Hin as [Hin|[]]. inversion Hin; subst. cbn [PutObjectInput.Key].
    rewrite Hp. exact (f_equal Some (Join_dotdot d x Hd Hx)).
Qed.

Lemma dotdot_key_witness :
  requests (trace_of sim.env (Pull samples.client "../secret" "/tmp/b.txt") sim.world0)
  = [GetObject {| GetObjectInput.Bucket := Some "bucket";
                  GetObjectInput.Key := Some "/secret" |}]
  /\ Some "/secret" = Some (String "/" "secret").
Proof.
  split; [vm_compute; reflexivity|].
  destruct (dotdot_key_leaves_prefix
              sim.World sim.env sim.world0 samples.client "prefix" "secret" "/tmp/b.txt")
    as [H _].
  - vm_compute. reflexivity.
  - split; [discriminate|]. split; reflexivity.
  - split; [discriminate|]. split; reflexivity.
  - apply (H {| GetObjectInput.Bucket := Some "bucket";
                GetObjectInput.Key := Some "/secret" |}).
    vm_compute. left. reflexivity.
Defined.

(** ** Loopback endpoints with a port and a path *)

Lemma LastIndex_from_sep (c : ascii) (s t : string) (i : nat) :
  all_bytes (is_not c) t = true ->
  strings.LastIndex_from i (s ++ String c t) (String c "") = Some (i + String.length s).
Proof.
  intros Ht. revert i. induction s as [|d s IH]; intros i.
  - cbn [append strings.LastIndex_from].
    rewrite LastIndex_from_absent by assumption.
    rewrite prefix_byte, Ascii.eqb_refl. simpl. f_equal. lia.
  - cbn [append strings.LastIndex_from]. rewrite IH. simpl. f_equal. lia.
Qed.

(** The rest of [parse] once the scheme is cut off, for [//host] followed
    by a path. *)
Lemma parse_authority_form (raw scheme host path : string) :
  url.stringContainsCTLByte raw = false ->
  String.eqb raw "" = false -> String.eqb raw "*" = false ->
  url.getScheme raw = Ok (scheme, String "/" (String "/" (host ++ path)%string)) ->
  strings.ToLower scheme = scheme -> String.eqb scheme "" = false ->
  all_bytes (is_not "?") (host ++ path)%string = true ->
  match strings.Index (host ++ path)%string "/" with
  | Some i => (strings.take i (host ++ path)%string, strings.drop i (host ++ path)%string)
  | None => ((host ++ path)%string, "")
  end = (host, path) ->
  url.parseAuthority host = Ok (None, host) ->
  url.setPath path = Ok (path, "") ->
  url.parse raw false = Ok (plain_url scheme host path).
Proof.
  intros Hctl He1 He2 Hsch Hlow Hne Hq Hsplit Hauth Hpath.
  unfold url.parse. rewrite Hctl, He1, He2, Hsch.
  cbn [andb result_bind fst snd].
  set (rest := String "/" (String "/" (host ++ path)%string)).
  assert (Hq' : all_bytes (is_not "?") rest = true)
    by (unfold rest; cbn [all_bytes]; now rewrite Hq).
  rewrite (CountByte_absent "?" rest Hq'), (Cut_absent "?" rest Hq').
  rewrite andb_false_r.
  assert (E3 : strings.HasPrefix rest "/" = true) by reflexivity.
  assert (E4 : strings.HasPrefix rest "//" = true).
  { unfold rest, strings.HasPrefix.
    rewrite <- (prefix_byte "/" "/" (host ++ path)%string) at 2.
    simpl. now destruct (host ++ path)%string. }
  assert (E6 : strings.drop 2 rest = (host ++ path)%string) by reflexivity.
  rewrite E3, E4, Hlow, E6, Hne. cbn [negb andb orb].
  rewrite Hsplit, Hauth. cbn [result_bind]. rewrite Hpath. reflexivity.
Qed.

Lemma split_authority_at_slash (host path : string) :
  all_bytes (is_not "/") host = true ->
  path = "" \/ (exists k, path = String "/" k) ->
  match strings.Index (host ++ path)%string "/" with
  | Some i => (strings.take i (host ++ path)%string, strings.drop i (host ++ path)%string)
  | None => ((host ++ path)%string, "")
  end = (host, path).
Proof.
  intros Hh [->|[k ->]]; unfold strings.Index.
  - assert (E : (host ++ "")%string = host)
      by (clear; induction host; simpl; congruence).
    now rewrite E, Index_from_absent.
  - rewrite Index_from_sep by assumption.
    simpl. now rewrite take_app, drop_app.
Qed.

Lemma digit_is_bucket_byte (c : ascii) :
  between "0" "9" c = true -> bucket_byte c = true.
Proof. intros H. unfold bucket_byte. rewrite H. now rewrite orb_true_r. Qed.

(** A property of the bytes of [name:] and of every digit holds of the
    authority [name] with any port. *)
Lemma authority_bytes (P : ascii -> bool) (name digits : string) :
  all_bytes P (name ++ ":")%string = true ->
  (forall c, bucket_byte c = true -> P c = true) ->
  all_bytes (between "0" "9") digits = true ->
  all_bytes P (name ++ port_suffix digits)%string = true.
Proof.
  intros H0 HP Hd. unfold port_suffix.
  assert (Hd' : all_bytes P digits = true).
  { revert Hd. apply all_bytes_impl. intros c Hc. now apply HP, digit_is_bucket_byte. }
  rewrite all_bytes_app in H0. apply andb_true_iff in H0 as [Hn Hc].
  cbn [all_bytes] in Hc. rewrite andb_true_r in Hc.
  rewrite all_bytes_app, Hn.
  destruct (String.eqb digits ""); cbn [all_bytes andb]; [reflexivity|].
  now rewrite Hc, Hd'.
Qed.

Lemma loopback_LastIndex_colon (digits : string) :
  all_bytes (between "0" "9") digits = true ->
  strings.LastIndex ("127.0.0.1" ++ port_suffix digits)%string ":"
  = if String.eqb digits "" then None else Some 9.
Proof.
  intros Hd. unfold port_suffix, strings.LastIndex.
  destruct (String.eqb digits ""); [reflexivity|].
  rewrite (LastIndex_from_sep ":" "127.0.0.1" digits 0); [reflexivity|].
  revert Hd. apply all_bytes_impl. intros c Hc.
  now destruct (bucket_byte_facts c (digit_is_bucket_byte c Hc))
    as (_ & _ & _ & _ & _ & _ & _ & _ & H & _).
Qed.

Lemma validOptionalPort_digits (digits : string) :
  all_bytes (between "0" "9") digits = true ->
  url.validOptionalPort (String ":" digits) = true.
Proof.
  intros Hd. unfold url.validOptionalPort. cbn [Ascii.eqb Bool.eqb negb].
  change (Ascii.eqb ":" ":") with true. cbn [negb]. now rewrite all_bytes_forallb.
Qed.

Lemma loopback_splitHostPort (digits : string) :
  all_bytes (between "0" "9") digits = true ->
  url.splitHostPort ("127.0.0.1" ++ port_suffix digits)%string = ("127.0.0.1", digits).
Proof.
  intros Hd. unfold url.splitHostPort.
  rewrite loopback_LastIndex_colon by assumption.
  unfold port_suffix.
  destruct (String.eqb_spec digits "") as [->|Hne]; [reflexivity|].
  cbn [append strings.drop strings.take Nat.add].
  now rewrite validOptionalPort_digits.
Qed.

Lemma loopback_parseAuthority (digits : string) :
  all_bytes (between "0" "9") digits = true ->
  url.parseAuthority ("127.0.0.1" ++ port_suffix digits)%string
  = Ok (None, ("127.0.0.1" ++ port_suffix digits)%string).
Proof.
  intros Hd.
  assert (Hall : forall P, all_bytes P "127.0.0.1:" = true ->
                           (forall c, bucket_byte c = true -> P c = true) ->
                           all_bytes P ("127.0.0.1" ++ port_suffix digits)%string = true)
    by (intros P H0 HP; now apply authority_bytes).
  set (hp := ("127.0.0.1" ++ port_suffix digits)%string) in *.
  assert (Hat : strings.LastIndex hp "@" = None).
  { unfold strings.LastIndex. apply LastIndex_from_absent.
    apply Hall; [reflexivity|]. intros c Hc.
    now destruct (bucket_byte_facts c Hc) as (_ & _ & _ & _ & _ & _ & _ & H & _). }
  assert (Hpre : strings.HasPrefix hp "[" = false) by reflexivity.
  assert (Hun : url.unescape hp url.encodeHost = Ok hp).
  { apply unescape_unchanged.
    - apply Hall; [reflexivity|]. intros c Hc.
      now destruct (bucket_byte_facts c Hc) as (_ & _ & H & _).
    - apply Hall; [reflexivity|]. intros c Hc.
      now destruct (bucket_byte_facts c Hc) as (_ & _ & _ & H & _).
    - left. apply Hall; [reflexivity|]. intros c Hc.
      destruct (bucket_byte_facts c Hc) as (-> & _). reflexivity. }
  pose proof (loopback_LastIndex_colon digits Hd) as Hcolon. fold hp in Hcolon.
  unfold url.parseAuthority, url.parseHost.
  rewrite Hat, Hpre, Hcolon.
  destruct (String.eqb_spec digits "") as [Hd0|Hne].
  - now rewrite Hun.
  - assert (Hdrop : strings.drop 9 hp = String ":" digits).
    { unfold hp, port_suffix. destruct (String.eqb_spec digits ""); [contradiction|].
      reflexivity. }
    rewrite Hdrop, validOptionalPort_digits by assumption.
    cbn [negb]. now rewrite Hun.
Qed.

Lemma EscapedPath_plain (scheme host path : string) :
  all_bytes key_byte path = true ->
  url.EscapedPath (plain_url scheme host path) = path.
Proof.
  intros Hk. unfold url.EscapedPath.
  cbn [plain_url url.RawPath url.Path String.eqb negb andb].
  assert (E : String.eqb path "*" = false).
  { destruct path as [|c [|d p]]; [reflexivity| |].
    - simpl in Hk. rewrite andb_true_r in Hk.
      destruct (key_byte_facts c Hk) as (_ & _ & _ & _ & _ & _ & H).
      unfold is_not in H. apply negb_true_iff in H. simpl. now rewrite H.
    - simpl. now destruct (Ascii.eqb c "*"). }
  rewrite E. apply escape_unchanged.
  revert Hk. apply all_bytes_impl. intros c Hc.
  destruct (key_byte_facts c Hc) as (-> & _). reflexivity.
Qed.

Lemma String_plain (scheme host path : string) :
  scheme = "http" \/ scheme = "https" ->
  host <> "" -> url.escape host url.encodeHost = host ->
  all_bytes key_byte path = true ->
  path = "" \/ (exists k, path = String "/" k) ->
  url.String (plain_url scheme host path) = (scheme ++ "://" ++ host ++ path)%string.
Proof.
  intros Hs Hne Hesc Hk Hshape.
  assert (Hnb : url.nonempty host = true)
    by (destruct host; [contradiction|reflexivity]).
  assert (Hkey : url.nonempty path && negb (strings.HasPrefix path "/") = false).
  { destruct Hshape as [->|[k ->]]; [reflexivity|].
    unfold strings.HasPrefix. now rewrite prefix_byte. }
  unfold url.String. rewrite (EscapedPath_plain scheme host path Hk).
  cbn [plain_url url.Scheme url.Opaque url.User url.Host url.Path url.OmitHost
       url.ForceQuery url.RawQuery url.Fragment].
  rewrite Hesc, Hnb, Hkey.
  destruct Hs as [->| ->]; reflexivity.
Qed.

Lemma Parse_loopback (scheme digits path : string) :
  scheme = "http" \/ scheme = "https" ->
  all_bytes (between "0" "9") digits = true ->
  all_bytes key_byte path = true ->
  path = "" \/ (exists k, path = String "/" k) ->
  url.Parse (scheme ++ "://" ++ ("127.0.0.1" ++ port_suffix digits) ++ path)%string
  = Ok (plain_url scheme ("127.0.0.1" ++ port_suffix digits)%string path).
Proof.
  intros Hs Hd Hk Hshape.
  set (hp := ("127.0.0.1" ++ port_suffix digits)%string).
  assert (Hhp : forall P, all_bytes P "127.0.0.1:" = true ->
                          (forall c, bucket_byte c = true -> P c = true) ->
                          all_bytes P hp = true)
    by (intros P H0 HP; now apply authority_bytes).
  assert (Hraw : forall P, all_bytes P "https://127.0.0.1:" = true ->
                           (forall c, bucket_byte c = true -> P c = true) ->
                           (forall c, key_byte c = true -> P c = true) ->
                           all_bytes P (scheme ++ "://" ++ hp ++ path)%string = true).
  { intros P H0 HP HK.
    assert (H1 : all_bytes P scheme = true /\ all_bytes P "://" = true
                 /\ all_bytes P "127.0.0.1:" = true).
    { cbn [all_bytes] in H0. repeat (apply andb_true_iff in H0 as [? H0]).
      destruct Hs as [->| ->]; cbn [all_bytes]; repeat split;
        repeat (apply andb_true_iff; split); auto. }
    destruct H1 as (H1 & H2 & H3).
    rewrite !all_bytes_app, H1, H2, (Hhp P H3 HP).
    now rewrite (all_bytes_impl key_byte P path HK Hk). }
  unfold url.Parse.
  rewrite Cut_absent.
  2:{ apply Hraw; [reflexivity| |]; intros c Hc.
      - now destruct (bucket_byte_facts c Hc) as (_ & _ & _ & _ & H & _).
      - now destruct (key_byte_facts c Hc) as (_ & _ & _ & _ & H & _). }
  rewrite (parse_authority_form _ scheme hp path); [reflexivity| | | | | | | | | | ].
  - apply stringContainsCTLByte_free. apply Hraw; [reflexivity| |]; intros c Hc.
    + destruct (bucket_byte_facts c Hc) as (_ & -> & _). reflexivity.
    + destruct (key_byte_facts c Hc) as (_ & -> & _). reflexivity.
  - destruct Hs as [->| ->]; reflexivity.
  - destruct Hs as [->| ->]; reflexivity.
  - destruct Hs as [->| ->]; reflexivity.
  - destruct Hs as [->| ->]; reflexivity.
  - destruct Hs as [->| ->]; reflexivity.
  - rewrite all_bytes_app. rewrite Hhp; [|reflexivity|].
    + apply (key_absent "?"); [reflexivity|assumption].
    + intros c Hc. now destruct (bucket_byte_facts c Hc) as (_ & _ & _ & _ & _ & H & _).
  - apply split_authority_at_slash; [|assumption].
    apply Hhp; [reflexivity|]. intros c Hc.
    now destruct (bucket_byte_facts c Hc) as (_ & _ & _ & _ & _ & _ & H & _).
  - now apply loopback_parseAuthority.
  - now apply setPath_canonical.
Qed.

(** X14. A loopback endpoint [http(s)://127.0.0.1], with or without a port and
    with or without a path, is rewritten to [localhost] with the same
    scheme, port and path. *)
Theorem loopback_endpoint_keeps_port_and_path :
  forall scheme digits path : string,
    scheme = "http" \/ scheme = "https" ->
    all_bytes (between "0" "9") digits = true ->
    all_bytes key_byte path = true ->
    path = "" \/ (exists k, path = String "/" k) ->
    getEndpoint (scheme ++ "://127.0.0.1" ++ port_suffix digits ++ path)
    = (scheme ++ "://localhost" ++ port_suffix digits ++ path)%string.
Proof.
  intros scheme digits path Hs Hd Hk Hshape.
  pose proof (Parse_loopback scheme digits path Hs Hd Hk Hshape) as HP.
  unfold getEndpoint.
  change (scheme ++ "://127.0.0.1" ++ port_suffix digits ++ path)%string
    with (scheme ++ "://" ++ ("127.0.0.1" ++ port_suffix digits) ++ path)%string.
  rewrite HP. unfold url.Hostname, url.Port.
  cbn [plain_url url.Host]. rewrite loopback_splitHostPort by assumption.
  cbn [fst snd]. change (String.eqb "127.0.0.1" "127.0.0.1") with true. cbv iota.
  assert (Hhost : (if negb (String.eqb digits "") then ("localhost" ++ ":" ++ digits)%string
                   else "localhost")
                  = ("localhost" ++ port_suffix digits)%string).
  { unfold port_suffix. destruct (String.eqb digits ""); reflexivity. }
  rewrite Hhost.
  change (url.with_Host (plain_url scheme ("127.0.0.1" ++ port_suffix digits) path)
                        ("localhost" ++ port_suffix digits))
    with (plain_url scheme ("localhost" ++ port_suffix digits)%string path).
  rewrite String_plain; try assumption; [reflexivity|discriminate|].
  apply escape_unchanged.
  apply authority_bytes; [reflexivity| |assumption].
  intros c Hc. destruct (bucket_byte_facts c Hc) as (-> & _). reflexivity.
Qed.

Lemma loopback_endpoint_witness :
  getEndpoint "https://127.0.0.1:9000/minio/data" = "https://localhost:9000/minio/data".
Proof.
  apply (loopback_endpoint_keeps_port_and_path "https" "9000" "/minio/data").
  - now right.
  - reflexivity.
  - reflexivity.
  - right. now exists "minio/data".
Defined.

(** ** Listing *)

(** X15. ReadDir sends one listing request and returns the objects of its
    answer, also when the answer is marked truncated: no further page is
    requested.  An empty answer gives an empty listing and no error. *)
Theorem ReadDir_first_page_only :
  forall (W : Type) (h : handler W) (w : W) (s : S3) (dirname : string)
         (cfg : aws.Config) (params : ListObjectsV2Input.t) (out : ListObjectsV2Output.t),
    In (s_ListObjectsV2 cfg params (Ok out)) (steps_of h (ReadDir s dirname) w) ->
    ~ Exists incomplete (ListObjectsV2Output.Contents out) ->
    length (filter store_step (steps_of h (ReadDir s dirname) w)) = 1
    /\ exists files,
        outcome_of h (ReadDir s dirname) w = Returned (files, None)
        /\ length files = length (ListObjectsV2Output.Contents out)
        /\ (ListObjectsV2Output.Contents out = [] -> files = []).
Proof.
  intros W h w s dirname cfg params out. unfold ReadDir.
  open_op h s w.
  destruct r as [cfg0|err']; cbn [run bind call fst snd]; drive h.
  - destruct (ReadDir_loop (ListObjectsV2Output.Contents a) []) as [files|] eqn:Hloop;
      cbn; intros Hin Hcomplete;
      repeat (destruct Hin as [Hin|Hin]; [try discriminate Hin|]); try contradiction;
      inversion Hin; subst.
    + split; [reflexivity|]. exists files. split; [reflexivity|].
      destruct (ReadDir_loop_spec _ _ _ Hloop) as (new & -> & H1 & _).
      apply (f_equal (@length _)) in H1. rewrite !length_map in H1.
      split; [exact H1|]. intros E. rewrite E in H1. now destruct new.
    + exfalso. apply Hcomplete. now apply (ReadDir_loop_None _ []).
  - cbn. intros Hin.
    repeat (destruct Hin as [Hin|Hin]; [try discriminate Hin|]); contradiction.
  - cbn. intros Hin.
    repeat (destruct Hin as [Hin|Hin]; [try discriminate Hin|]); contradiction.
Qed.

Lemma ReadDir_first_page_witness :
  exists files,
    outcome_of (refusing truncated_listing sim.env) (ReadDir samples.client "prefix") sim.world0
    = Returned (files, None)
    /\ length files = 1.
Proof.
  destruct (ReadDir_first_page_only
              sim.World (refusing truncated_listing sim.env) sim.world0 samples.client "prefix"
              {| aws.Region := "us-east-1"; aws.Credentials := "ambient";
                 aws.EndpointResolverWithOptions :=
                   Some (fun _ _ => Ok {| aws.URL := getEndpoint (endpoint samples.client) |});
                 aws.LogMode := 0%Z |}
              {| ListObjectsV2Input.Bucket := Some "bucket";
                 ListObjectsV2Input.Prefix := Some "prefix" |}
              {| ListObjectsV2Output.Contents :=
                   [{| types.Key := Some "prefix/0001"; types.LastModified := Some 1%Z;
                       types.Size := 4%Z |}];
                 ListObjectsV2Output.IsTruncated := true |})
    as (_ & files & Ho & Hlen & _).
  - vm_compute. right. right. left. reflexivity.
  - intros H. inversion H as [? ? [Hi|Hi]|? ? Hi]; subst; try discriminate Hi.
    inversion Hi.
  - exists files. split; [exact Ho|exact Hlen].
Defined.

(** ** The endpoint of a client without endpoint option *)

Lemma options_keep_endpoint (opts : list Option) (s : S3) :
  Forall not_endpoint_option opts ->
  endpoint (fold_left (fun s opt => opt s) opts s) = endpoint s.
Proof.
  intros H. revert s. induction H as [|opt opts Hopt _ IH]; intros s; [reflexivity|].
  simpl. rewrite IH. destruct Hopt; reflexivity.
Qed.

(** X16. A client constructed without [WithEndpoint] has the empty endpoint, and
    its operations still install an endpoint resolver: one that answers the
    empty URL for every service and region. *)
Theorem client_without_endpoint_resolves_empty_url :
  forall (u : url.URL) (opts : list Option),
    Forall not_endpoint_option opts ->
    endpoint (New u opts) = ""
    /\ forall (W : Type) (h : handler W) (w : W),
      exists enabled answer resolver rest,
        steps_of h (getConfig (endpoint (New u opts))) w =
          [s_IsLevelEnabled log.TraceLevel enabled;
           s_LoadDefaultConfig (config.WithEndpointResolverWithOptions resolver :: rest) answer]
        /\ forall service region : string,
            resolver service region = Ok {| aws.URL := "" |}.
Proof.
  intros u opts H.
  assert (E : endpoint (New u opts) = "")
    by (unfold New; now rewrite options_keep_endpoint).
  split; [exact E|]. intros W h w. rewrite E.
  destruct (run_getConfig_exact h "" w) as (b & r & w' & f & Er & Hf).
  exists b, r, f. eexists. unfold steps_of, trace_of. rewrite Er.
  split; [reflexivity|]. intros service region. now rewrite Hf.
Qed.

Lemma client_without_endpoint_witness :
  endpoint (New (sim.location "s3://bucket/prefix") [WithRegion "us-east-1"; WithPathStyle]) = "".
Proof.
  apply (client_without_endpoint_resolves_empty_url
           (sim.location "s3://bucket/prefix") [WithRegion "us-east-1"; WithPathStyle]).
  repeat constructor.
Defined.

(** ** Sanity checks of the embedded library functions *)

Example Clean_ex1 : path.Clean "/a//b/./c/../d/" = "/a/b/d". Proof. reflexivity. Qed.
Example Clean_ex2 : path.Clean "../../a/.." = "../..". Proof. reflexivity. Qed.
Example Clean_ex3 : path.Clean "/../a" = "/a". Proof. reflexivity. Qed.
Example Clean_ex4 : path.Clean "a/b/../../.." = "..". Proof. reflexivity. Qed.
Example Clean_ex5 : path.Clean "abc/def/ghi/../jkl" = "abc/def/jkl". Proof. reflexivity. Qed.
Example Clean_ex6 : path.Clean "//" = "/". Proof. reflexivity. Qed.
Example Clean_ex7 : path.Clean "a/.." = ".". Proof. reflexivity. Qed.
Example Join_ex1 : path.Join ["/prefix"; "a/b.txt"] = "/prefix/a/b.txt". Proof. reflexivity. Qed.
Example Join_ex2 : path.Join [""; "a/b.txt"] = "a/b.txt". Proof. reflexivity. Qed.
Example Join_ex3 : path.Join ["/"; ""] = "/". Proof. reflexivity. Qed.
Example Join_ex4 : path.Join [""; ""] = "". Proof. reflexivity. Qed.

Example Parse_ex1 :
  option_map (fun u => (url.Scheme u, url.Host u, url.Path u))
             (match url.Parse "s3://bucket/prefix/a%20b?x=1#frag" with
              | Ok u => Some u | Err _ => None end)
  = Some ("s3", "bucket", "/prefix/a b").
Proof. vm_compute. reflexivity. Qed.

Example Parse_ex2 :
  url.Parse "http://[::1" = Err (url_Error "parse" "http://[::1" (errors_New "missing ']' in host")).
Proof. vm_compute. reflexivity. Qed.

Example Hostname_ex1 :
  (url.Hostname (sim.location "http://user:pw@[::1]:80/a b"),
   url.Port (sim.location "http://user:pw@[::1]:80/a b"),
   url.String (sim.location "http://user:pw@[::1]:80/a b"))
  = ("::1", "80", "http://user:pw@[::1]:80/a%20b").
Proof. vm_compute. reflexivity. Qed.

Example Pull_ex1 :
  outcome_of sim.env (Pull samples.client "a/b.txt" "/tmp/b.txt") sim.world0
  = Returned (3%Z, None).
Proof. vm_compute. reflexivity. Qed.

Example ReadDir_ex1 :
  outcome_of sim.env (ReadDir samples.client "nothing/here") sim.world0
  = Returned ([], None).
Proof. vm_compute. reflexivity. Qed.
